(** * Contract Analyzer (app.py): a shallow embedding and its properties

    The program is one Streamlit script.  It reads an uploaded contract
    (PDF, DOCX or plain text), extracts its text, sends the text inside a
    fixed prompt to a generative model, parses the JSON of the reply and
    renders the fields.

    The embedding follows the script top to bottom:
    - Python [str] is a list of Unicode code points, [bytes] a list of bytes;
    - the value [json.loads] returns is the inductive [json];
    - a statement that may raise runs in the monad [M]: it appends the calls
      it makes (Streamlit calls and calls into libraries) to a trace and
      ends with a value or with an exception;
    - the libraries the script calls and whose code is not part of the
      repository ([PdfReader], [Document], [json.loads],
      [model.generate_content]) are the variables of a section.  UTF-8
      decoding, the one library function with a closed specification, is
      written out. *)

From Stdlib Require Import ZArith List Bool Lia.
From Stdlib Require Import Strings.Byte Strings.String Strings.Ascii.
From Stdlib Require Import Floats.SpecFloat.
Import ListNotations.
Open Scope Z_scope.
Set Warnings "-register-all".

(** ** Python data *)

(** A Python [str]: its code points, in order. *)
Definition str := list Z.

(** A Python [bytes] object. *)
Definition bytes := list byte.

(** What [json.loads] can return.  A [dict] keeps its items in insertion
    order; [None] is [JNull]. *)
Inductive json :=
| JNull
| JBool (b : bool)
| JInt (n : Z)
| JFloat (f : spec_float)
| JStr (s : str)
| JList (l : list json)
| JDict (d : list (str * json)).

(** The exceptions the script can meet.  All of them derive from Python's
    [Exception]; [PyException] stands for whatever a library call raises
    ([PdfReadError], [JSONDecodeError], an API error, ...).  The text of
    an exception is taken to be text Streamlit can show: the texts of
    the three named exceptions are ASCII, with every character that
    cannot be encoded written as an escape. *)
Inductive exn :=
| UnicodeDecodeError
| UnicodeEncodeError
| AttributeError (obj : json) (attr : str)
| PyException (cls msg : str).

Inductive result (A : Type) :=
| Ok (a : A)
| Raise (e : exn).
Arguments Ok {A} a.
Arguments Raise {A} e.

Definition result_map {A B} (f : A -> B) (r : result A) : result B :=
  match r with
  | Ok a => Ok (f a)
  | Raise e => Raise e
  end.

(** ** [bytes.decode("utf-8")] and [str.encode("utf-8")] *)

Definition Z_of_byte (b : byte) : Z := Z.of_N (Byte.to_N b).

Definition byte_of_Z (z : Z) : byte :=
  match Byte.of_N (Z.to_N z) with
  | Some b => b
  | None => x00
  end.

(** A continuation byte, 10xxxxxx. *)
Definition is_cont (b : byte) : bool :=
  (0x80 <=? Z_of_byte b) && (Z_of_byte b <=? 0xBF).

(** The six payload bits of a continuation byte. *)
Definition cont_bits (b : byte) : Z := Z_of_byte b - 0x80.

Definition is_surrogate (c : Z) : bool := (0xD800 <=? c) && (c <=? 0xDFFF).

(** Strict UTF-8, as Python decodes it: shortest form only, no surrogate,
    nothing above U+10FFFF, and no byte order mark is removed.  The first
    ill-formed sequence raises. *)
Fixpoint utf8_decode (bs : bytes) : result str :=
  match bs with
  | [] => Ok []
  | b0 :: r0 =>
    let x0 := Z_of_byte b0 in
    if x0 <? 0x80 then result_map (cons x0) (utf8_decode r0)
    else if x0 <? 0xC2 then Raise UnicodeDecodeError
    else if x0 <? 0xE0 then
      match r0 with
      | b1 :: r1 =>
        if is_cont b1
        then result_map (cons ((x0 - 0xC0) * 64 + cont_bits b1)) (utf8_decode r1)
        else Raise UnicodeDecodeError
      | _ => Raise UnicodeDecodeError
      end
    else if x0 <? 0xF0 then
      match r0 with
      | b1 :: b2 :: r2 =>
        let c := (x0 - 0xE0) * 4096 + cont_bits b1 * 64 + cont_bits b2 in
        if is_cont b1 && is_cont b2 && (0x800 <=? c) && negb (is_surrogate c)
        then result_map (cons c) (utf8_decode r2)
        else Raise UnicodeDecodeError
      | _ => Raise UnicodeDecodeError
      end
    else if x0 <? 0xF5 then
      match r0 with
      | b1 :: b2 :: b3 :: r3 =>
        let c := (x0 - 0xF0) * 262144 + cont_bits b1 * 4096
                 + cont_bits b2 * 64 + cont_bits b3 in
        if is_cont b1 && is_cont b2 && is_cont b3
           && (0x10000 <=? c) && (c <=? 0x10FFFF)
        then result_map (cons c) (utf8_decode r3)
        else Raise UnicodeDecodeError
      | _ => Raise UnicodeDecodeError
      end
    else Raise UnicodeDecodeError
  end.

(** The encoding of one code point; [None] for what UTF-8 cannot encode
    (a surrogate, a negative number, anything above U+10FFFF). *)
Definition utf8_encode_char (c : Z) : option bytes :=
  if c <? 0 then None
  else if c <? 0x80 then Some [byte_of_Z c]
  else if c <? 0x800 then
    Some [byte_of_Z (0xC0 + c / 64); byte_of_Z (0x80 + c mod 64)]
  else if c <? 0x10000 then
    if is_surrogate c then None
    else Some [byte_of_Z (0xE0 + c / 4096);
               byte_of_Z (0x80 + (c / 64) mod 64);
               byte_of_Z (0x80 + c mod 64)]
  else if c <? 0x110000 then
    Some [byte_of_Z (0xF0 + c / 262144);
          byte_of_Z (0x80 + (c / 4096) mod 64);
          byte_of_Z (0x80 + (c / 64) mod 64);
          byte_of_Z (0x80 + c mod 64)]
  else None.

Fixpoint utf8_encode (s : str) : option bytes :=
  match s with
  | [] => Some []
  | c :: s' =>
    match utf8_encode_char c, utf8_encode s' with
    | Some bc, Some bs => Some (bc ++ bs)
    | _, _ => None
    end
  end.

(** A literal of the source file (which is UTF-8) as a [str]. *)
Definition lit (s : string) : str :=
  match utf8_decode (list_byte_of_string s) with
  | Ok t => t
  | Raise _ => []
  end.
Arguments lit s%_string.

(** The newline character, written [\n] in the source. *)
Definition nl : str := [10].

(** A double quote, as a [str]. *)
Definition dq : str := [34].

Definition str_eqb (a b : str) : bool :=
  if list_eq_dec Z.eq_dec a b then true else false.

(** Python's [x or d] on an optional [str]: [None] and the empty string
    are falsy. *)
Definition py_or (x : option str) (d : str) : str :=
  match x with
  | Some (c :: s) => c :: s
  | _ => d
  end.

(** Python's truth value of a [json.loads] result. *)
Definition truthy (v : json) : bool :=
  match v with
  | JNull => false
  | JBool b => b
  | JInt n => negb (n =? 0)
  | JFloat (S754_zero _) => false
  | JFloat _ => true
  | JStr s => negb (str_eqb s [])
  | JList l => match l with [] => false | _ :: _ => true end
  | JDict d => match d with [] => false | _ :: _ => true end
  end.

(** [v == s] for a [str] [s]: only an equal [str] compares equal. *)
Definition py_eq_str (v : json) (s : str) : bool :=
  match v with
  | JStr t => str_eqb t s
  | _ => false
  end.

(** Lookup in a [dict], first item with the key. *)
Fixpoint dict_lookup (d : list (str * json)) (key : str) : option json :=
  match d with
  | [] => None
  | (k, v) :: d' => if str_eqb k key then Some v else dict_lookup d' key
  end.

(** [dict.get(key, default)] *)
Definition dict_get (d : list (str * json)) (key : str) (default : json) : json :=
  match dict_lookup d key with
  | Some v => v
  | None => default
  end.

(** [obj.get(key, default)].  Of the values [json.loads] returns only a
    [dict] has the method. *)
Definition py_get (obj : json) (key : str) (default : json) : result json :=
  match obj with
  | JDict d => Ok (dict_get d key default)
  | _ => Raise (AttributeError obj (lit "get"))
  end.
Arguments py_get !obj key default.

(** ** [re.search] for the pattern of the script

    A pattern is a sequence of literal runs and capturing groups of a
    starred dot.  With
    [re.DOTALL] the dot matches every character, the newline too.  The
    matcher backtracks as Python's does: a star takes as much as it can
    and gives back one character at a time; the search tries the start
    positions from the left. *)
Inductive re_item :=
| Lit (s : str)
| GroupDotStar.

Definition pattern := list re_item.

Fixpoint strip_prefix (p s : str) : option str :=
  match p, s with
  | [], _ => Some s
  | a :: p', b :: s' => if a =? b then strip_prefix p' s' else None
  | _ :: _, [] => None
  end.

Section DotStar.
(** The rest of the pattern, which gives the later groups. *)
Variable k : str -> option (list str).

(** The group's text and the later groups, longest group first. *)
Fixpoint dot_star (s : str) : option (str * list str) :=
  match s with
  | [] => option_map (pair []) (k [])
  | c :: s' =>
    match dot_star s' with
    | Some (g, caps) => Some (c :: g, caps)
    | None => option_map (pair []) (k s)
    end
  end.
End DotStar.

(** The groups of a match that starts at the head of [s]. *)
Fixpoint match_here (p : pattern) (s : str) : option (list str) :=
  match p with
  | [] => Some []
  | Lit l :: p' =>
    match strip_prefix l s with
    | Some s' => match_here p' s'
    | None => None
    end
  | GroupDotStar :: p' =>
    option_map (fun gc => fst gc :: snd gc) (dot_star (match_here p') s)
  end.

(** [re.search(p, s)]: the groups of the leftmost match, [None] without
    a match. *)
Fixpoint re_search (p : pattern) (s : str) : option (list str) :=
  match match_here p s with
  | Some caps => Some caps
  | None =>
    match s with
    | [] => None
    | _ :: s' => re_search p s'
    end
  end.

(** [m.group(n)] for [n >= 1]. *)
Definition group (caps : list str) (n : nat) : result str :=
  match nth_error caps (pred n) with
  | Some g => Ok g
  | None => Raise (PyException (lit "IndexError") (lit "no such group"))
  end.

(** The pattern of the script: the opening fence with its language tag
    and a newline, a capturing group of a starred dot, a newline and the
    closing fence. *)
Definition fence_open : str := lit "```json" ++ nl.
Definition fence_close : str := nl ++ lit "```".
Definition fence_pattern : pattern :=
  [Lit fence_open; GroupDotStar; Lit fence_close].

(** ** Calls and traces *)

(** An f-string before formatting: literal text and the values the
    braces hold. *)
Inductive frag :=
| FLit (s : str)
| FVal (v : json)
| FExn (e : exn).

Definition fstring := list frag.

(** The argument of [st.columns]: a number of columns or their widths. *)
Inductive columns_spec :=
| ColCount (n : Z)
| ColWidths (w : list Z).

(** The calls the script makes, as the trace records them: Streamlit
    calls, entry and exit of the [with] blocks, and the calls into the
    document, codec and model libraries. *)
Inductive event :=
| st_set_page_config (page_title : str)
| st_title (body : str)
| st_header (body : str)
| st_subheader (body : str)
| st_markdown (body : fstring) (unsafe_allow_html : bool)
| st_file_uploader (label : str) (types : list str)
| st_button (label : str)
| st_info (body : fstring)
| st_success (body : str)
| st_warning (body : str)
| st_error (body : fstring)
| st_columns (spec : columns_spec)
| st_checkbox (label : str) (value disabled : bool)
| spinner_enter (text : str)
| spinner_exit
| column_enter (i : nat)
| column_exit
| call_PdfReader (data : bytes)
| call_Document (data : bytes)
| call_decode (data : bytes)
| call_generate_content (prompt : str).

Definition trace := list event.

(** A statement: the calls it made and how it ended. *)
Definition M (A : Type) : Type := trace * result A.

Definition ret {A} (a : A) : M A := ([], Ok a).

Definition bind {A B} (m : M A) (f : A -> M B) : M B :=
  match m with
  | (l, Ok a) => let (l', r) := f a in (l ++ l', r)
  | (l, Raise e) => (l, Raise e)
  end.

Notation "x <- m ;; f" := (bind m (fun x => f))
  (at level 61, m at next level, right associativity).
Notation "m ;; f" := (bind m (fun _ => f))
  (at level 61, right associativity).

Definition emit (e : event) : M unit := ([e], Ok tt).

(** A text holds a lone surrogate: UTF-8 cannot encode it. *)
Definition has_lone_surrogate (s : str) : bool := existsb is_surrogate s.

(** Whether the text an f-string makes of a value can be sent to the
    browser.  A [str] is inserted as it is, so it must hold no lone
    surrogate; every other value is inserted as its [repr], which is
    ASCII or writes a surrogate as an escape. *)
Definition displayable (v : json) : bool :=
  match v with
  | JStr s => negb (has_lone_surrogate s)
  | _ => true
  end.

(** A Streamlit call whose text holds the value [shown]: the call is
    made, and it raises [UnicodeEncodeError] when the text cannot be
    encoded. *)
Definition display (e : event) (shown : json) : M unit :=
  ([e], if displayable shown then Ok tt else Raise UnicodeEncodeError).

(** A library call: the trace records it, the library decides its end. *)
Definition call {A} (e : event) (r : result A) : M A := ([e], r).

Definition lift {A} (r : result A) : M A := ([], r).

(** [try: body except Exception as e: handler(e)] *)
Definition try_except {A} (body : M A) (handler : exn -> M A) : M A :=
  match body with
  | (l, Ok a) => (l, Ok a)
  | (l, Raise e) => let (l', r) := handler e in (l ++ l', r)
  end.

(** [with ctx: body]; the exit runs on every path and hides nothing. *)
Definition with_ {A} (enter exit : event) (body : M A) : M A :=
  let (l, r) := body in (enter :: l ++ [exit], r).

(** [for x in xs: body(x)] *)
Fixpoint for_ {A} (xs : list A) (body : A -> M unit) : M unit :=
  match xs with
  | [] => ret tt
  | x :: xs' => body x ;; for_ xs' body
  end.

(** [for x in xs: acc = step(acc, x)] *)
Fixpoint for_acc {A S} (xs : list A) (step : S -> A -> M S) (acc : S) : M S :=
  match xs with
  | [] => ret acc
  | x :: xs' => acc' <- step acc x ;; for_acc xs' step acc'
  end.

(** ** The script *)

(** A line of a literal of the source, with the newline that ends it. *)
Definition ln (s : string) : str := lit s ++ nl.
Arguments ln s%_string.

Definition quoted (s : str) : str := dq ++ s ++ dq.

(** A line of the schema the prompt shows: the indentation, the quoted
    key, a colon, the quoted description and what stands before the
    newline. *)
Definition schema_line (indent key description ending : string) : str :=
  lit indent ++ quoted (lit key) ++ lit ": " ++ quoted (lit description)
  ++ lit ending ++ nl.
Arguments schema_line (indent key description ending)%_string.

(** A line that opens a nested object of the schema. *)
Definition schema_open (indent key : string) : str :=
  lit indent ++ quoted (lit key) ++ lit ": {" ++ nl.
Arguments schema_open (indent key)%_string.

(** The prompt, up to the contract text. *)
Definition prompt_head : str :=
  nl
  ++ ln "    You are an expert contract analyzer. Your task is to analyze the following contract text and extract key insights."
  ++ ln "    "
  ++ ln "    The output should be a single JSON object with the following structure:"
  ++ ln "    {"
  ++ schema_line "      " "Contract Type" "The type of agreement (e.g., Service Agreement, Lease, NDA)." ","
  ++ schema_line "      " "Address" "The address mentioned in the contract." ","
  ++ schema_line "      " "Entry Date" "The date the contract was entered into." ","
  ++ schema_line "      " "Contract Party" "The names of the parties involved in the contract." ","
  ++ schema_line "      " "Termination Date" "Any date or clause specifying when the contract can be terminated." ","
  ++ schema_line "      " "End of Contract" "The specific end date or duration of the contract." ","
  ++ schema_line "      " "Executive Summary" "A concise summary of the contract's purpose and key terms." ","
  ++ schema_line "      " "Scope of Service" "A description of the services or work to be performed." ","
  ++ schema_line "      " "Responsibilities for Deliverables" "A summary of each party's responsibilities and the deliverables they are accountable for." ","
  ++ schema_line "      " "Payment Schedule" "Details on how and when payments will be made." ","
  ++ schema_line "      " "Tax Compliance" "Any clauses related to tax responsibilities and compliance." ","
  ++ schema_line "      " "Important Dates and Deadlines" "A list of all significant dates and deadlines mentioned in the contract." ","
  ++ schema_line "      " "Termination Clauses" "Conditions under which the contract can be terminated by either party." ","
  ++ schema_line "      " "Confidentiality and Non-Compete Clause" "Details of any confidentiality agreements and non-compete restrictions." ","
  ++ schema_open "      " "Clauses Presence"
  ++ schema_open "        " "Commercial"
  ++ schema_line "          " "Payment Terms" "Yes/No" ","
  ++ schema_line "          " "IP" "Yes/No" ","
  ++ schema_line "          " "Delivery Time" "Yes/No" ","
  ++ schema_line "          " "Warranty" "Yes/No" EmptyString
  ++ ln "        },"
  ++ schema_open "        " "Legal"
  ++ schema_line "          " "Indemnification" "Yes/No" ","
  ++ schema_line "          " "Termination" "Yes/No" ","
  ++ schema_line "          " "Confidentiality" "Yes/No" ","
  ++ schema_line "          " "Limitation of Liability" "Yes/No" EmptyString
  ++ ln "        }"
  ++ ln "      }"
  ++ ln "    }"
  ++ ln "    "
  ++ ln "    Analyze the following contract text:"
  ++ ln "    ---"
  ++ lit "    ".

(** The prompt, after the contract text. *)
Definition prompt_tail : str :=
  nl ++ ln "    ---" ++ lit "    ".

(** The style sheet of the coloured boxes. *)
Definition custom_css : str :=
  nl
  ++ ln "                            <style>"
  ++ ln "                            .custom-box {"
  ++ ln "                                border-radius: 5px;"
  ++ ln "                                padding: 10px;"
  ++ ln "                                margin-bottom: 10px;"
  ++ ln "                                border: 1px solid #ddd;"
  ++ ln "                            }"
  ++ ln "                            .box-red { background-color: #ffe5e5; }"
  ++ ln "                            .box-green { background-color: #e5ffe5; }"
  ++ ln "                            .box-blue { background-color: #e5e5ff; }"
  ++ ln "                            .box-purple { background-color: #f2e5ff; }"
  ++ ln "                            .box-orange { background-color: #fff2e5; }"
  ++ ln "                            .box-pink { background-color: #ffe5f2; }"
  ++ ln "                            .box-yellow { background-color: #ffffcc; }"
  ++ ln "                            </style>"
  ++ lit "                            ".

(** What Streamlit hands over for an uploaded file: the size it reports,
    the declared MIME type and the content. *)
Record UploadedFile := {
  size : Z;
  type : str;
  getvalue : bytes
}.

(** A page of a PDF: what its [extract_text()] does. *)
Record page := { extract_text : result (option str) }.

(** A paragraph of a DOCX document and its [text]. *)
Record paragraph := { paragraph_text : str }.

Section Script.

(** [model.generate_content(prompt).text] *)
Variable generate_content : str -> result str.
(** [json.loads] *)
Variable json_loads : str -> result json.
(** [PdfReader(file_obj).pages] *)
Variable PdfReader : bytes -> result (list page).
(** [Document(file_obj).paragraphs] *)
Variable Document : bytes -> result (list paragraph).

(** The parsing step of [get_gemini_response]: the fenced text when the
    pattern matches, the whole reply otherwise, handed to [json.loads]. *)
Definition parse_response (response_text : str) : result json :=
  let json_match := re_search fence_pattern response_text in
  match
    match json_match with
    | Some caps => group caps 1
    | None => Ok response_text
    end
  with
  | Ok json_str => json_loads json_str
  | Raise e => Raise e
  end.

Definition get_gemini_response (input_text : str) : M json :=
  let prompt := prompt_head ++ input_text ++ prompt_tail in
  try_except
    (response_text <- call (call_generate_content prompt) (generate_content prompt) ;;
     lift (parse_response response_text))
    (fun e =>
       emit (st_error [FLit (lit "An error occurred: "); FExn e]) ;;
       ret JNull).

Definition extract_text_from_pdf (file_obj : bytes) : M str :=
  pages <- call (call_PdfReader file_obj) (PdfReader file_obj) ;;
  for_acc pages
    (fun text page =>
       t <- lift (extract_text page) ;;
       ret (text ++ py_or t []))
    [].

Definition extract_text_from_docx (file_obj : bytes) : M str :=
  paragraphs <- call (call_Document file_obj) (Document file_obj) ;;
  for_acc paragraphs
    (fun text paragraph => ret (text ++ paragraph_text paragraph ++ nl))
    [].

(** The [if]/[elif] chain on the declared type; [contract_text] stays
    empty when no branch is taken. *)
Definition extract_contract_text (uploaded_file : UploadedFile)
    (file_content : bytes) : M str :=
  if str_eqb (type uploaded_file) (lit "application/pdf") then
    emit (st_info [FLit (lit "Extracting text from PDF...")]) ;;
    extract_text_from_pdf file_content
  else if str_eqb (type uploaded_file)
            (lit "application/vnd.openxmlformats-officedocument.wordprocessingml.document") then
    emit (st_info [FLit (lit "Extracting text from DOCX...")]) ;;
    extract_text_from_docx file_content
  else if str_eqb (type uploaded_file) (lit "text/plain") then
    emit (st_info [FLit (lit "Reading text from TXT...")]) ;;
    call (call_decode file_content) (utf8_decode file_content)
  else ret [].

Definition box_colors : list (str * str) :=
  [ (lit "Contract Type", lit "box-red");
    (lit "Address", lit "box-green");
    (lit "Entry Date", lit "box-blue");
    (lit "Contract Party", lit "box-purple");
    (lit "Termination Date", lit "box-orange");
    (lit "End of Contract", lit "box-pink") ].

(** The two halves of a coloured box. *)
Definition box_label (color_class key : str) : fstring :=
  [ FLit (lit "<div class=" ++ dq ++ lit "custom-box ");
    FVal (JStr color_class);
    FLit (dq ++ lit "><b>");
    FVal (JStr key);
    FLit (lit "</b></div>") ].

Definition box_value (color_class : str) (value : json) : fstring :=
  [ FLit (lit "<div class=" ++ dq ++ lit "custom-box ");
    FVal (JStr color_class);
    FLit (dq ++ lit ">");
    FVal value;
    FLit (lit "</div>") ].

Definition NA : json := JStr (lit "N/A").

(** [st.info(f"<label>{analysis_data.get(<key>, 'N/A')}")] *)
Definition info_field (analysis_data : json) (label key : string) : M unit :=
  value <- lift (py_get analysis_data (lit key) NA) ;;
  display (st_info [FLit (lit label); FVal value]) value.
Arguments info_field analysis_data (label key)%_string.

(** [st.checkbox(<label>, value=<clauses>.get(<key>, "No") == "Yes",
    disabled=True)] *)
Definition clause_checkbox (label : string) (clauses : json) (key : string)
  : M unit :=
  value <- lift (py_get clauses (lit key) (JStr (lit "No"))) ;;
  emit (st_checkbox (lit label) (py_eq_str value (lit "Yes")) true).
Arguments clause_checkbox label%_string clauses key%_string.

Definition rule : event := st_markdown [FLit (lit "---")] false.

(** The body of [if analysis_data:]. *)
Definition render (analysis_data : json) : M unit :=
  emit (st_success (lit "Analysis Complete! 🎉")) ;;
  emit (st_markdown [FLit custom_css] true) ;;
  emit (st_header (lit "Key Contract Details")) ;;
  for_ box_colors
    (fun kc =>
       let key := fst kc in
       let color_class := snd kc in
       value <- lift (py_get analysis_data key NA) ;;
       emit (st_columns (ColWidths [1; 4])) ;;
       with_ (column_enter 0) column_exit
         (emit (st_markdown (box_label color_class key) true)) ;;
       with_ (column_enter 1) column_exit
         (display (st_markdown (box_value color_class value) true) value)) ;;
  emit rule ;;
  emit (st_header (lit "Full Analysis")) ;;
  emit (st_subheader (lit "General Insights")) ;;
  info_field analysis_data "**Executive Summary:** " "Executive Summary" ;;
  info_field analysis_data "**Scope of Service:** " "Scope of Service" ;;
  info_field analysis_data "**Responsibilities for Deliverables:** "
    "Responsibilities for Deliverables" ;;
  info_field analysis_data "**Payment Schedule:** " "Payment Schedule" ;;
  info_field analysis_data "**Tax Compliance:** " "Tax Compliance" ;;
  info_field analysis_data "**Important Dates and Deadlines:** "
    "Important Dates and Deadlines" ;;
  info_field analysis_data "**Termination Clauses:** " "Termination Clauses" ;;
  info_field analysis_data "**Confidentiality and Non-Compete Clause:** "
    "Confidentiality and Non-Compete Clause" ;;
  emit rule ;;
  emit (st_subheader (lit "Clause Presence Check ✅")) ;;
  clauses <- lift (py_get analysis_data (lit "Clauses Presence") (JDict [])) ;;
  emit (st_markdown [FLit (lit "##### Commercial Clauses")] false) ;;
  commercial_clauses <- lift (py_get clauses (lit "Commercial") (JDict [])) ;;
  emit (st_columns (ColCount 2)) ;;
  with_ (column_enter 0) column_exit
    (clause_checkbox "Payment Terms" commercial_clauses "Payment Terms" ;;
     clause_checkbox "IP (Intellectual Property)" commercial_clauses "IP") ;;
  with_ (column_enter 1) column_exit
    (clause_checkbox "Delivery Time" commercial_clauses "Delivery Time" ;;
     clause_checkbox "Warranty" commercial_clauses "Warranty") ;;
  emit rule ;;
  emit (st_markdown [FLit (lit "##### Legal Clauses")] false) ;;
  legal_clauses <- lift (py_get clauses (lit "Legal") (JDict [])) ;;
  emit (st_columns (ColCount 2)) ;;
  with_ (column_enter 0) column_exit
    (clause_checkbox "Indemnification" legal_clauses "Indemnification" ;;
     clause_checkbox "Termination" legal_clauses "Termination") ;;
  with_ (column_enter 1) column_exit
    (clause_checkbox "Confidentiality" legal_clauses "Confidentiality" ;;
     clause_checkbox "Limitation of Liability" legal_clauses
       "Limitation of Liability").

(** The ceiling on the size of an upload, in bytes. *)
Definition size_limit : Z := 200 * 1024 * 1024.

Definition size_error : event :=
  st_error [FLit (lit "File size exceeds the 200 MB limit. Please upload a smaller file.")].

Definition analysis_error : event :=
  st_error [FLit (lit "Could not analyze the contract. Please check the contract text and your API key.")].

Definition no_text_error : event :=
  st_error [FLit (lit "Could not extract any text from the uploaded file. Please ensure the file is not corrupted.")].

Definition processing_error (e : exn) : event :=
  st_error [FLit (lit "An error occurred during file processing: "); FExn e].

(** The [else] branch of the size check: read, extract, analyse, render. *)
Definition process_file (uploaded_file : UploadedFile) : M unit :=
  let file_content := getvalue uploaded_file in
  try_except
    (contract_text <- extract_contract_text uploaded_file file_content ;;
     if negb (str_eqb contract_text []) then
       with_ (spinner_enter (lit "Analyzing contract... Please wait.⏳")) spinner_exit
         (analysis_data <- get_gemini_response contract_text ;;
          if truthy analysis_data then render analysis_data
          else emit analysis_error)
     else emit no_text_error)
    (fun e => emit (processing_error e)).

(** The body of [if st.button("Analyze Contract"):]. *)
Definition analyze (uploaded_file : option UploadedFile) : M unit :=
  match uploaded_file with
  | Some f =>
    if size f >? size_limit then emit size_error
    else process_file f
  | None =>
    emit (st_warning (lit "Please upload a contract file to analyze."))
  end.

(** The part of a run every run shares. *)
Definition page_top : trace :=
  [ st_set_page_config (lit "Contract Analyzer 📄🔍");
    st_title (lit "Contract Analyzer");
    st_markdown [FLit (lit "### Powered by Gemini Pro API")] false;
    st_file_uploader (lit "Upload a contract file (PDF, DOCX, TXT)")
      [lit "pdf"; lit "docx"; lit "txt"];
    st_button (lit "Analyze Contract") ].

(** One run of the script: what the uploader holds and whether the
    button was pressed. *)
Definition script (uploaded_file : option UploadedFile) (clicked : bool) : M unit :=
  (page_top, Ok tt) ;;
  if clicked then analyze uploaded_file else ret tt.

End Script.

(** ** Vocabulary of the properties *)

(** The text handed to [json.loads]: the fenced text when the pattern
    matches, the whole reply otherwise. *)
Definition selected_payload (response_text : str) : str :=
  match re_search fence_pattern response_text with
  | Some (g :: _) => g
  | _ => response_text
  end.

(** A reply holds a fence: an opening fence with the tag, and further on
    a newline and a closing fence. *)
Definition has_fence (s : str) : Prop :=
  exists pre body post, s = pre ++ fence_open ++ body ++ fence_close ++ post.

Definition is_model_call (e : event) : bool :=
  match e with
  | call_generate_content _ => true
  | _ => false
  end.

Definition is_extraction_call (e : event) : bool :=
  match e with
  | call_PdfReader _ | call_Document _ | call_decode _ => true
  | _ => false
  end.

(** The text a page contributes: its extracted string, the empty string
    when it has none. *)
Definition page_text (p : option str) : str :=
  match p with
  | Some s => s
  | None => []
  end.

(** A code point UTF-8 can encode. *)
Definition scalar_value (c : Z) : Prop :=
  0 <= c <= 0x10FFFF /\ ~ (0xD800 <= c <= 0xDFFF).

(** The eight narrative fields: the label of the block and the key. *)
Definition narrative_fields : list (string * string) :=
  [ ("**Executive Summary:** ", "Executive Summary");
    ("**Scope of Service:** ", "Scope of Service");
    ("**Responsibilities for Deliverables:** ", "Responsibilities for Deliverables");
    ("**Payment Schedule:** ", "Payment Schedule");
    ("**Tax Compliance:** ", "Tax Compliance");
    ("**Important Dates and Deadlines:** ", "Important Dates and Deadlines");
    ("**Termination Clauses:** ", "Termination Clauses");
    ("**Confidentiality and Non-Compete Clause:** ", "Confidentiality and Non-Compete Clause")
  ]%string.



(** The flags of a category as the presenter reads them: the category's
    object, the empty [dict] when the nested object or the category is
    absent. *)
Definition flags_of (d : list (str * json)) (category : str) : list (str * json) :=
  match dict_lookup d (lit "Clauses Presence") with
  | Some (JDict clauses) =>
    match dict_lookup clauses category with
    | Some (JDict flags) => flags
    | _ => []
    end
  | _ => []
  end.

(** The nested objects of a result that are present are objects:
    ["Clauses Presence"], and in it ["Commercial"] and ["Legal"]. *)
Definition category_shaped (clauses : list (str * json)) (category : str) : bool :=
  match dict_lookup clauses category with
  | None | Some (JDict _) => true
  | Some _ => false
  end.

(** The fourteen keys whose values the page shows, in the order the
    presenter reads them. *)
Definition shown_keys : list str :=
  map fst box_colors ++ map (fun lk => lit (snd lk)) narrative_fields.

(** Every headline and narrative value the presenter shows for a result
    can be shown: no [str] among them holds a lone surrogate. *)
Definition fields_displayable (d : list (str * json)) : bool :=
  forallb (fun key => displayable (dict_get d key NA)) shown_keys.

Definition clauses_shaped (d : list (str * json)) : bool :=
  match dict_lookup d (lit "Clauses Presence") with
  | None => true
  | Some (JDict clauses) =>
    category_shaped clauses (lit "Commercial")
    && category_shaped clauses (lit "Legal")
  | Some _ => false
  end.

(** No opening fence starts in [pre]: the one that follows it is the
    first of the reply. *)
Definition first_open (pre : str) : Prop :=
  forall a b, pre ++ fence_open = a ++ fence_open ++ b -> b = [].

(** No closing fence starts in [post]: the one before it is the last of
    the reply. *)
Definition last_close (post : str) : Prop :=
  forall a b, fence_close ++ post = a ++ fence_close ++ b -> a = [].



Definition is_spinner (e : event) : bool :=
  match e with
  | spinner_enter _ | spinner_exit => true
  | _ => false
  end.

Definition is_error (e : event) : bool :=
  match e with
  | st_error _ => true
  | _ => false
  end.

(** What tells the user how the run went: a warning, an error or the
    success banner. *)
Definition is_feedback (e : event) : bool :=
  match e with
  | st_warning _ | st_error _ | st_success _ => true
  | _ => false
  end.

(** A page without text: [extract_text()] gives [None] or the empty
    string. *)
Definition blank_page (p : page) : Prop :=
  extract_text p = Ok None \/ extract_text p = Ok (Some []).

(** ** Library behaviours for running the script on examples *)

(** A [json.loads] that knows the documents of a table and rejects every
    other text. *)
Definition loads_table (table : list (str * json)) (s : str) : result json :=
  match dict_lookup table s with
  | Some v => Ok v
  | None => Raise (PyException (lit "JSONDecodeError") (lit "Expecting value"))
  end.

(** A model that answers every prompt with the same text. *)
Definition reply_with (text : str) (prompt : str) : result str := Ok text.

(** A PDF reader that finds the given pages in every file. *)
Definition pdf_with (pages : list page) (data : bytes) : result (list page) :=
  Ok pages.

(** A PDF reader that rejects every file. *)
Definition pdf_corrupt (data : bytes) : result (list page) :=
  Raise (PyException (lit "PdfReadError") (lit "EOF marker not found")).

(** A DOCX reader that finds the given paragraphs in every file. *)
Definition docx_with (paragraphs : list paragraph) (data : bytes)
  : result (list paragraph) := Ok paragraphs.

(** A small result and the text of it. *)
Definition nda_json : json := JDict [(lit "Contract Type", JStr (lit "NDA"))].

Definition nda_text : str :=
  lit "{" ++ quoted (lit "Contract Type") ++ lit ": " ++ quoted (lit "NDA")
  ++ lit "}".

(** A [json.loads] for the examples: the small result, the empty object
    and the empty list. *)
Definition sample_loads : str -> result json :=
  loads_table [(nda_text, nda_json); (lit "{}", JDict []); (lit "[]", JList [])].


Definition txt_file (data : bytes) : UploadedFile :=
  {| size := Z.of_nat (List.length data); type := lit "text/plain"; getvalue := data |}.

Definition pdf_file (declared_size : Z) (data : bytes) : UploadedFile :=
  {| size := declared_size; type := lit "application/pdf"; getvalue := data |}.

Definition docx_file (data : bytes) : UploadedFile :=
  {| size := Z.of_nat (List.length data);
     type := lit "application/vnd.openxmlformats-officedocument.wordprocessingml.document";
     getvalue := data |}.

(** An upload whose declared type the script does not know. *)
Definition png_file (data : bytes) : UploadedFile :=
  {| size := Z.of_nat (List.length data); type := lit "image/png"; getvalue := data |}.

(** A model whose every call fails. *)
Definition model_down (prompt : str) : result str :=
  Raise (PyException (lit "ServiceUnavailable") (lit "503 The model is overloaded.")).

(** * Properties *)

(** ** Literal runs and the starred group *)

Lemma strip_prefix_app (p s : str) : strip_prefix p (p ++ s) = Some s.
Proof.
  induction p as [|a p IH]; simpl.
  - destruct s; reflexivity.
  - rewrite Z.eqb_refl. exact IH.
Qed.

Lemma strip_prefix_Some (p s r : str) :
  strip_prefix p s = Some r -> s = p ++ r.
Proof.
  revert s. induction p as [|a p IH]; intros s H.
  - destruct s; simpl in H; inversion H; reflexivity.
  - destruct s as [|b s]; simpl in H; [discriminate|].
    destruct (Z.eqb_spec a b) as [->|]; [|discriminate].
    simpl. f_equal. now apply IH.
Qed.

Lemma strip_prefix_short (p s : str) :
  (List.length s < List.length p)%nat -> strip_prefix p s = None.
Proof.
  revert s. induction p as [|a p IH]; intros s H; simpl in H.
  - lia.
  - destruct s as [|b s]; simpl in *; [reflexivity|].
    destruct (a =? b); [apply IH; lia | reflexivity].
Qed.

Section Star.
Variable k : str -> option (list str).

(** What the group took is a prefix of the text and the rest of the
    pattern matched what follows. *)
Lemma dot_star_sound (s g : str) (caps : list str) :
  dot_star k s = Some (g, caps) ->
  exists r, s = g ++ r /\ k r = Some caps.
Proof.
  revert g caps. induction s as [|c s IH]; intros g caps H; simpl in H.
  - destruct (k []) eqn:E; simpl in H; [|discriminate].
    injection H as <- <-. now exists [].
  - destruct (dot_star k s) as [[g' caps']|] eqn:E.
    + injection H as <- <-.
      destruct (IH _ _ eq_refl) as (r & -> & Hr).
      now exists r.
    + destruct (k (c :: s)) eqn:E'; simpl in H; [|discriminate].
      injection H as <- <-. now exists (c :: s).
Qed.

(** The group matches whenever some split of the text lets the rest of
    the pattern match. *)
Lemma dot_star_complete (g r : str) (caps : list str) :
  k r = Some caps -> dot_star k (g ++ r) <> None.
Proof.
  intros Hk. induction g as [|c g IH]; simpl.
  - destruct r as [|c r]; simpl.
    + rewrite Hk. discriminate.
    + destruct (dot_star k r) as [[? ?]|]; [discriminate|].
      rewrite Hk. discriminate.
  - destruct (dot_star k (g ++ r)) as [[? ?]|]; [discriminate|].
    now contradiction IH.
Qed.

(** The group is greedy: when the rest of the pattern cannot match
    anything shorter than [c] and matches [c], the group of [t ++ c] is
    the whole of [t]. *)
Lemma dot_star_greedy (t c : str) (caps : list str) :
  (forall s, (List.length s < List.length c)%nat -> k s = None) ->
  k c = Some caps ->
  dot_star k (t ++ c) = Some (t, caps).
Proof.
  intros Hshort Hc.
  assert (Hnone : forall s, (List.length s < List.length c)%nat -> dot_star k s = None).
  { induction s as [|x s IH]; intros Hlen; simpl.
    - now rewrite Hshort.
    - simpl in Hlen. rewrite IH by lia. now rewrite Hshort. }
  induction t as [|x t IH]; simpl.
  - destruct c as [|x c]; simpl.
    + now rewrite Hc.
    + rewrite Hnone by (simpl; lia). now rewrite Hc.
  - now rewrite IH.
Qed.
End Star.

(** A match of the pattern at the head of a text: the text starts with
    the opening fence, and a closing fence follows the group. *)
Lemma match_here_fence_sound (s : str) (caps : list str) :
  match_here fence_pattern s = Some caps ->
  exists g post, s = fence_open ++ g ++ fence_close ++ post /\ caps = [g].
Proof.
  unfold fence_pattern. cbn [match_here].
  destruct (strip_prefix fence_open s) as [s'|] eqn:E; [|discriminate].
  apply strip_prefix_Some in E. subst s.
  destruct (dot_star _ s') as [[g caps']|] eqn:D; [|discriminate].
  simpl. intros H. injection H as <-.
  apply dot_star_sound in D. destruct D as (r & -> & Hr).
  destruct (strip_prefix fence_close r) as [post|] eqn:E; [|discriminate].
  apply strip_prefix_Some in E. subst r. injection Hr as <-.
  now exists g, post.
Qed.

Lemma match_here_fence_complete (g post : str) :
  match_here fence_pattern (fence_open ++ g ++ fence_close ++ post) <> None.
Proof.
  unfold fence_pattern. cbn [match_here].
  rewrite strip_prefix_app.
  match goal with
  | |- context [dot_star ?k _] =>
    pose proof (dot_star_complete k g (fence_close ++ post) []) as H
  end.
  cbv beta in H. rewrite strip_prefix_app in H. specialize (H eq_refl).
  destruct (dot_star _ _); [discriminate | now contradiction H].
Qed.

(** The text between the fences of [fence_open ++ t ++ fence_close] is
    the group, whatever [t] holds. *)
Lemma match_here_fenced (t : str) :
  match_here fence_pattern (fence_open ++ t ++ fence_close) = Some [t].
Proof.
  unfold fence_pattern. cbn [match_here].
  rewrite strip_prefix_app.
  match goal with
  | |- context [dot_star ?k _] =>
    rewrite (dot_star_greedy k t fence_close [])
  end.
  - reflexivity.
  - intros s Hs. cbv beta. now rewrite strip_prefix_short.
  - reflexivity.
Qed.

Lemma re_search_eq (p : pattern) (s : str) :
  re_search p s =
  match match_here p s with
  | Some caps => Some caps
  | None =>
    match s with
    | [] => None
    | _ :: s' => re_search p s'
    end
  end.
Proof. destruct s; reflexivity. Qed.

Lemma re_search_sound (s : str) (caps : list str) :
  re_search fence_pattern s = Some caps ->
  exists pre g post,
    s = pre ++ fence_open ++ g ++ fence_close ++ post /\ caps = [g].
Proof.
  induction s as [|c s IH]; rewrite re_search_eq;
    destruct (match_here fence_pattern _) eqn:E; intros H.
  - injection H as <-.
    destruct (match_here_fence_sound _ _ E) as (g & post & Hs & Hc).
    now exists [], g, post.
  - discriminate.
  - injection H as <-.
    destruct (match_here_fence_sound _ _ E) as (g & post & Hs & Hc).
    now exists [], g, post.
  - destruct (IH H) as (pre & g & post & -> & Hc).
    now exists (c :: pre), g, post.
Qed.

Lemma re_search_complete (s : str) :
  has_fence s -> re_search fence_pattern s <> None.
Proof.
  intros (pre & g & post & ->).
  induction pre as [|c pre IH]; rewrite re_search_eq.
  - pose proof (match_here_fence_complete g post) as H.
    simpl app at 1.
    destruct (match_here fence_pattern _); [discriminate | now contradiction H].
  - destruct (match_here fence_pattern _); [discriminate | exact IH].
Qed.

(** The search finds a match exactly in the replies that hold a fence. *)
Lemma re_search_fence_iff (s : str) :
  re_search fence_pattern s <> None <-> has_fence s.
Proof.
  split.
  - destruct (re_search fence_pattern s) as [caps|] eqn:E; [|congruence].
    intros _. destruct (re_search_sound _ _ E) as (pre & g & post & H & _).
    now exists pre, g, post.
  - apply re_search_complete.
Qed.

Lemma re_search_fenced (t : str) :
  re_search fence_pattern (fence_open ++ t ++ fence_close) = Some [t].
Proof. now rewrite re_search_eq, match_here_fenced. Qed.

(** ** UTF-8 *)

Lemma Z_of_byte_of_Z (z : Z) : 0 <= z < 256 -> Z_of_byte (byte_of_Z z) = z.
Proof.
  intros Hz. unfold Z_of_byte, byte_of_Z.
  destruct (Byte.of_N (Z.to_N z)) as [b|] eqn:E.
  - apply Byte.to_of_N in E. rewrite E. lia.
  - apply Byte.of_N_None_iff in E. lia.
Qed.

Lemma Z_of_byte_range (b : byte) : 0 <= Z_of_byte b < 256.
Proof.
  unfold Z_of_byte. pose proof (Byte.to_N_bounded b). lia.
Qed.

Lemma utf8_decode_cons (b0 : byte) (r0 : bytes) :
  utf8_decode (b0 :: r0) =
  let x0 := Z_of_byte b0 in
  if x0 <? 0x80 then result_map (cons x0) (utf8_decode r0)
  else if x0 <? 0xC2 then Raise UnicodeDecodeError
  else if x0 <? 0xE0 then
    match r0 with
    | b1 :: r1 =>
      if is_cont b1
      then result_map (cons ((x0 - 0xC0) * 64 + cont_bits b1)) (utf8_decode r1)
      else Raise UnicodeDecodeError
    | _ => Raise UnicodeDecodeError
    end
  else if x0 <? 0xF0 then
    match r0 with
    | b1 :: b2 :: r2 =>
      let c := (x0 - 0xE0) * 4096 + cont_bits b1 * 64 + cont_bits b2 in
      if is_cont b1 && is_cont b2 && (0x800 <=? c) && negb (is_surrogate c)
      then result_map (cons c) (utf8_decode r2)
      else Raise UnicodeDecodeError
    | _ => Raise UnicodeDecodeError
    end
  else if x0 <? 0xF5 then
    match r0 with
    | b1 :: b2 :: b3 :: r3 =>
      let c := (x0 - 0xF0) * 262144 + cont_bits b1 * 4096
               + cont_bits b2 * 64 + cont_bits b3 in
      if is_cont b1 && is_cont b2 && is_cont b3
         && (0x10000 <=? c) && (c <=? 0x10FFFF)
      then result_map (cons c) (utf8_decode r3)
      else Raise UnicodeDecodeError
    | _ => Raise UnicodeDecodeError
    end
  else Raise UnicodeDecodeError.
Proof. reflexivity. Qed.

(** Comparisons decided from the order. *)
Lemma ltb_yes (a b : Z) : a < b -> (a <? b) = true.
Proof. apply Z.ltb_lt. Qed.

Lemma ltb_no (a b : Z) : b <= a -> (a <? b) = false.
Proof. apply Z.ltb_ge. Qed.

Lemma leb_yes (a b : Z) : a <= b -> (a <=? b) = true.
Proof. apply Z.leb_le. Qed.

Lemma leb_no (a b : Z) : b < a -> (a <=? b) = false.
Proof. apply Z.leb_gt. Qed.

Lemma gtb_yes (a b : Z) : a > b -> (a >? b) = true.
Proof. intros H. rewrite Z.gtb_ltb. apply Z.ltb_lt. lia. Qed.

Lemma gtb_no (a b : Z) : a <= b -> (a >? b) = false.
Proof. intros H. rewrite Z.gtb_ltb. now apply Z.ltb_ge. Qed.

Lemma some_eq {A} (a b : A) : Some a = Some b -> a = b.
Proof. congruence. Qed.

(** A trailing byte built from six bits is a continuation byte and gives
    the bits back. *)
Lemma cont_byte (x : Z) :
  0 <= x < 64 ->
  is_cont (byte_of_Z (0x80 + x)) = true /\ cont_bits (byte_of_Z (0x80 + x)) = x.
Proof.
  intros Hx. unfold is_cont, cont_bits.
  rewrite Z_of_byte_of_Z by lia.
  rewrite !leb_yes by lia. split; [reflexivity | lia].
Qed.

(** Rewrites the tests and the payload of the trailing byte that holds the
    six bits [x]. *)
Ltac trailing x :=
  let Hc := fresh "Hc" in
  let Hb := fresh "Hb" in
  destruct (cont_byte x) as [Hc Hb];
  [ Z.div_mod_to_equations; lia | rewrite ?Hc, ?Hb; clear Hc Hb ].

(** Decoding what one code point encodes to gives the code point back
    and goes on with the rest. *)
Lemma utf8_decode_encode_char (c : Z) (bc rest : bytes) :
  utf8_encode_char c = Some bc ->
  utf8_decode (bc ++ rest) = result_map (cons c) (utf8_decode rest).
Proof.
  unfold utf8_encode_char, is_surrogate.
  destruct (Z.ltb_spec c 0); [discriminate|].
  destruct (Z.ltb_spec c 0x80).
  { intros E. apply some_eq in E. subst bc. cbn [List.app].
    rewrite utf8_decode_cons. cbv zeta.
    rewrite Z_of_byte_of_Z by lia. now rewrite ltb_yes by lia. }
  destruct (Z.ltb_spec c 0x800).
  { intros E. apply some_eq in E. subst bc. cbn [List.app].
    rewrite utf8_decode_cons. cbv zeta.
    rewrite Z_of_byte_of_Z by (Z.div_mod_to_equations; lia).
    rewrite (ltb_no _ 0x80), (ltb_no _ 0xC2), (ltb_yes _ 0xE0)
      by (Z.div_mod_to_equations; lia).
    trailing (c mod 64).
    do 2 f_equal. Z.div_mod_to_equations; lia. }
  destruct (Z.ltb_spec c 0x10000).
  { destruct (Z.leb_spec 0xD800 c); destruct (Z.leb_spec c 0xDFFF);
      cbn [andb]; try discriminate;
      intros E; apply some_eq in E; subst bc; cbn [List.app];
      rewrite utf8_decode_cons; cbv zeta;
      rewrite Z_of_byte_of_Z by (Z.div_mod_to_equations; lia);
      rewrite (ltb_no _ 0x80), (ltb_no _ 0xC2), (ltb_no _ 0xE0), (ltb_yes _ 0xF0)
        by (Z.div_mod_to_equations; lia);
      trailing ((c / 64) mod 64); trailing (c mod 64);
      replace ((0xE0 + c / 4096 - 0xE0) * 4096 + (c / 64) mod 64 * 64 + c mod 64)
        with c by (Z.div_mod_to_equations; lia);
      unfold is_surrogate;
      rewrite (leb_yes 0x800 c) by lia; cbn [andb].
    - now rewrite (leb_no c 0xDFFF) by lia; rewrite andb_false_r.
    - now rewrite (leb_no 0xD800 c) by lia.
    - now rewrite (leb_no 0xD800 c) by lia. }
  destruct (Z.ltb_spec c 0x110000); [|discriminate].
  intros E. apply some_eq in E. subst bc. cbn [List.app].
  rewrite utf8_decode_cons. cbv zeta.
  rewrite Z_of_byte_of_Z by (Z.div_mod_to_equations; lia).
  rewrite (ltb_no _ 0x80), (ltb_no _ 0xC2), (ltb_no _ 0xE0), (ltb_no _ 0xF0),
    (ltb_yes _ 0xF5) by (Z.div_mod_to_equations; lia).
  trailing ((c / 4096) mod 64). trailing ((c / 64) mod 64). trailing (c mod 64).
  replace ((0xF0 + c / 262144 - 0xF0) * 262144 + (c / 4096) mod 64 * 4096
           + (c / 64) mod 64 * 64 + c mod 64)
    with c by (Z.div_mod_to_equations; lia).
  now rewrite (leb_yes 0x10000 c), (leb_yes c 0x10FFFF) by lia.
Qed.

(** Decoding inverts encoding. *)
Lemma utf8_decode_encode (t : str) (bs : bytes) :
  utf8_encode t = Some bs -> utf8_decode bs = Ok t.
Proof.
  revert bs. induction t as [|c t IH]; intros bs H; simpl in H.
  - now injection H as <-.
  - destruct (utf8_encode_char c) as [bc|] eqn:Ec; [|discriminate].
    destruct (utf8_encode t) as [bt|] eqn:Et; [|discriminate].
    injection H as <-.
    rewrite (utf8_decode_encode_char _ _ _ Ec), (IH _ eq_refl).
    reflexivity.
Qed.

(** Every text made of scalar values has an encoding. *)
Lemma utf8_encode_total (t : str) :
  Forall scalar_value t -> exists bs, utf8_encode t = Some bs.
Proof.
  induction 1 as [|c t [Hr Hs] _ [bs IH]]; simpl.
  - now exists [].
  - rewrite IH. unfold utf8_encode_char, is_surrogate.
    destruct (Z.ltb_spec c 0); [lia|].
    destruct (Z.ltb_spec c 0x80); [eauto|].
    destruct (Z.ltb_spec c 0x800); [eauto|].
    destruct (Z.ltb_spec c 0x10000).
    + destruct (Z.leb_spec 0xD800 c); destruct (Z.leb_spec c 0xDFFF);
        cbn [andb]; eauto; lia.
    + destruct (Z.ltb_spec c 0x110000); [eauto | lia].
Qed.

Lemma byte_of_Z_of_byte (b : byte) : byte_of_Z (Z_of_byte b) = b.
Proof.
  unfold byte_of_Z, Z_of_byte. rewrite N2Z.id. now rewrite Byte.of_to_N.
Qed.

Lemma result_map_cons_Ok (c : Z) (r : result str) (t : str) :
  result_map (cons c) r = Ok t -> exists t', t = c :: t' /\ r = Ok t'.
Proof.
  destruct r as [t'|e]; simpl; [|discriminate].
  intros H. injection H as <-. now exists t'.
Qed.

Lemma is_cont_range (b : byte) :
  is_cont b = true -> 0x80 <= Z_of_byte b <= 0xBF.
Proof.
  unfold is_cont. intros H. apply andb_prop in H. destruct H as [H1 H2].
  apply Z.leb_le in H1, H2. lia.
Qed.

(** A byte of the encoding is the byte [b] the decoder read. *)
Ltac same_byte b :=
  rewrite <- (byte_of_Z_of_byte b) at 2; f_equal;
  unfold cont_bits in *; Z.div_mod_to_equations; lia.

(** What the decoder accepts is the encoding of what it returns. *)
Lemma utf8_decode_sound (bs : bytes) (t : str) :
  utf8_decode bs = Ok t -> utf8_encode t = Some bs.
Proof.
  remember (List.length bs) as n eqn:Hn.
  revert bs t Hn. induction n as [n IH] using lt_wf_ind.
  intros [|b0 r0] t Hn H.
  - injection H as <-. reflexivity.
  - rewrite utf8_decode_cons in H. cbv zeta in H.
    pose proof (Z_of_byte_range b0) as R0.
    destruct (Z.ltb_spec (Z_of_byte b0) 0x80) as [L1|L1].
    { apply result_map_cons_Ok in H. destruct H as (t' & -> & H).
      apply (IH (List.length r0)) in H; [|simpl in Hn; lia|reflexivity].
      cbn [utf8_encode]. rewrite H. unfold utf8_encode_char.
      rewrite (ltb_no _ 0), (ltb_yes _ 0x80) by lia.
      now rewrite byte_of_Z_of_byte. }
    destruct (Z.ltb_spec (Z_of_byte b0) 0xC2) as [L2|L2]; [discriminate|].
    destruct (Z.ltb_spec (Z_of_byte b0) 0xE0) as [L3|L3].
    { destruct r0 as [|b1 r1]; [discriminate|].
      destruct (is_cont b1) eqn:C1; [|discriminate].
      apply is_cont_range in C1.
      apply result_map_cons_Ok in H. destruct H as (t' & -> & H).
      apply (IH (List.length r1)) in H; [|simpl in Hn; lia|reflexivity].
      cbn [utf8_encode]. rewrite H. unfold utf8_encode_char.
      rewrite (ltb_no _ 0), (ltb_no _ 0x80), (ltb_yes _ 0x800)
        by (unfold cont_bits in *; lia).
      cbn [List.app]. do 2 f_equal; [same_byte b0|]. f_equal. same_byte b1. }
    destruct (Z.ltb_spec (Z_of_byte b0) 0xF0) as [L4|L4].
    { destruct r0 as [|b1 [|b2 r2]]; try discriminate.
      destruct (is_cont b1) eqn:C1; [|discriminate].
      destruct (is_cont b2) eqn:C2; [|discriminate].
      cbn [andb] in H.
      match type of H with
      | (if (?lo <=? ?c) && negb (is_surrogate ?c) then _ else _) = _ =>
        destruct (Z.leb_spec lo c) as [Lo|Lo]; [|discriminate];
        destruct (is_surrogate c) eqn:Sg; [discriminate|]
      end.
      cbn [andb negb] in H.
      apply is_cont_range in C1, C2.
      apply result_map_cons_Ok in H. destruct H as (t' & -> & H).
      apply (IH (List.length r2)) in H; [|simpl in Hn; lia|reflexivity].
      cbn [utf8_encode]. rewrite H. unfold utf8_encode_char. rewrite Sg.
      rewrite (ltb_no _ 0), (ltb_no _ 0x80), (ltb_no _ 0x800), (ltb_yes _ 0x10000)
        by (unfold cont_bits in *; lia).
      cbn [List.app]. do 2 f_equal; [same_byte b0|].
      f_equal; [same_byte b1|]. f_equal. same_byte b2. }
    destruct (Z.ltb_spec (Z_of_byte b0) 0xF5) as [L5|L5]; [|discriminate].
    destruct r0 as [|b1 [|b2 [|b3 r3]]]; try discriminate.
    destruct (is_cont b1) eqn:C1; [|discriminate].
    destruct (is_cont b2) eqn:C2; [|discriminate].
    destruct (is_cont b3) eqn:C3; [|discriminate].
    cbn [andb] in H.
    match type of H with
    | (if (?lo <=? ?c) && (?c <=? ?hi) then _ else _) = _ =>
      destruct (Z.leb_spec lo c) as [Lo|Lo]; [|discriminate];
      destruct (Z.leb_spec c hi) as [Hi|Hi]; [|discriminate]
    end.
    cbn [andb] in H.
    apply is_cont_range in C1, C2, C3.
    apply result_map_cons_Ok in H. destruct H as (t' & -> & H).
    apply (IH (List.length r3)) in H; [|simpl in Hn; lia|reflexivity].
    cbn [utf8_encode]. rewrite H. unfold utf8_encode_char.
    rewrite (ltb_no _ 0), (ltb_no _ 0x80), (ltb_no _ 0x800), (ltb_no _ 0x10000),
      (ltb_yes _ 0x110000) by (unfold cont_bits in *; lia).
    cbn [List.app]. do 2 f_equal; [same_byte b0|].
    f_equal; [same_byte b1|]. f_equal; [same_byte b2|]. f_equal. same_byte b3.
Qed.

(** The decoder raises on exactly the byte strings that encode no text,
    and then it raises [UnicodeDecodeError]. *)
Lemma utf8_decode_raises (bs : bytes) :
  (forall t, utf8_encode t <> Some bs) <->
  utf8_decode bs = Raise UnicodeDecodeError.
Proof.
  split.
  - intros Hno. destruct (utf8_decode bs) as [t|e] eqn:E.
    + now apply utf8_decode_sound, Hno in E.
    + f_equal. clear Hno. revert e E.
      remember (List.length bs) as n eqn:Hn.
      revert bs Hn. induction n as [n IH] using lt_wf_ind.
      assert (Hmap : forall c r e, (List.length r < n)%nat ->
                result_map (cons c) (utf8_decode r) = Raise e ->
                e = UnicodeDecodeError).
      { intros c r e Hr H. destruct (utf8_decode r) eqn:E; [discriminate|].
        injection H as <-. now apply (IH _ Hr r eq_refl). }
      intros [|b0 r0] Hn e H; [discriminate|].
      rewrite utf8_decode_cons in H. cbv zeta in H. simpl in Hn.
      repeat match type of H with
             | (if ?c then _ else _) = _ => destruct c
             | match ?l with [] => _ | _ :: _ => _ end = _ =>
               destruct l; simpl in Hn
             | Raise _ = Raise _ => now injection H as <-
             | result_map _ _ = _ => apply Hmap in H; [exact H | lia]
             end.
  - intros H t Ht. apply utf8_decode_encode in Ht. congruence.
Qed.

(** ** The monad *)

Lemma bind_ok {A B} (l : trace) (a : A) (f : A -> M B) :
  bind (l, Ok a) f = (l ++ fst (f a), snd (f a)).
Proof. unfold bind. now destruct (f a). Qed.

Lemma bind_nil_ok {A B} (a : A) (f : A -> M B) : bind ([], Ok a) f = f a.
Proof. unfold bind. now destruct (f a). Qed.

Lemma bind_raise {A B} (l : trace) (e : exn) (f : A -> M B) :
  bind (l, Raise e) f = (l, Raise e).
Proof. reflexivity. Qed.

Lemma try_except_raise {A} (l : trace) (e : exn) (h : exn -> M A) :
  try_except (l, Raise e) h = (l ++ fst (h e), snd (h e)).
Proof. unfold try_except. now destruct (h e). Qed.


(** A property of every call of a trace holds for a statement when it
    holds for its parts. *)
Section TraceInvariant.
Variable P : event -> Prop.

Lemma inv_ret {A} (a : A) : Forall P (fst (ret a)).
Proof. constructor. Qed.

Lemma inv_lift {A} (r : result A) : Forall P (fst (lift r)).
Proof. constructor. Qed.

Lemma inv_emit (e : event) : P e -> Forall P (fst (emit e)).
Proof. intros H. now repeat constructor. Qed.

Lemma inv_call {A} (e : event) (r : result A) : P e -> Forall P (fst (call e r)).
Proof. intros H. now repeat constructor. Qed.

Lemma inv_bind {A B} (m : M A) (f : A -> M B) :
  Forall P (fst m) -> (forall a, Forall P (fst (f a))) ->
  Forall P (fst (bind m f)).
Proof.
  intros Hm Hf. destruct m as [l [a|e]]; simpl in *.
  - specialize (Hf a). destruct (f a) as [l' r]. simpl in *.
    now apply Forall_app.
  - exact Hm.
Qed.

Lemma inv_try_except {A} (m : M A) (h : exn -> M A) :
  Forall P (fst m) -> (forall e, Forall P (fst (h e))) ->
  Forall P (fst (try_except m h)).
Proof.
  intros Hm Hh. destruct m as [l [a|e]]; simpl in *.
  - exact Hm.
  - specialize (Hh e). destruct (h e) as [l' r]. simpl in *.
    now apply Forall_app.
Qed.

Lemma inv_with {A} (enter exit : event) (m : M A) :
  P enter -> P exit -> Forall P (fst m) ->
  Forall P (fst (with_ enter exit m)).
Proof.
  intros He Hx Hm. destruct m as [l r]. simpl in *.
  constructor; [exact He|]. apply Forall_app. split; [exact Hm|].
  now repeat constructor.
Qed.

Lemma inv_for {A} (xs : list A) (body : A -> M unit) :
  (forall x, Forall P (fst (body x))) -> Forall P (fst (for_ xs body)).
Proof.
  intros Hb. induction xs as [|x xs IH]; cbn [for_].
  - apply inv_ret.
  - apply inv_bind; [apply Hb | intros _; exact IH].
Qed.

Lemma inv_for_acc {A S} (xs : list A) (step : S -> A -> M S) (acc : S) :
  (forall s x, Forall P (fst (step s x))) ->
  Forall P (fst (for_acc xs step acc)).
Proof.
  intros Hs. revert acc. induction xs as [|x xs IH]; intros acc; cbn [for_acc].
  - apply inv_ret.
  - apply inv_bind; [apply Hs | intros acc'; apply IH].
Qed.
End TraceInvariant.

(** Splits a property of a trace into the properties of the calls the
    statement makes. *)
Ltac trace_inv :=
  repeat first
    [ apply inv_ret
    | apply inv_lift
    | apply inv_emit
    | apply inv_call
    | apply inv_with
    | apply inv_bind; [|intros ?]
    | apply inv_try_except; [|intros ?]
    | apply inv_for; intros ?
    | apply inv_for_acc; intros ? ? ].

(** Two calls differ: by their shape, or by the texts they carry. *)
Ltac differ :=
  let H := fresh in
  intro H; solve [discriminate H | vm_compute in H; discriminate H].

Lemma filter_nil_Forall {A} (p : A -> bool) (l : list A) :
  Forall (fun x => p x = false) l -> filter p l = [].
Proof.
  induction 1 as [|x l Hx _ IH]; simpl; [reflexivity|]. now rewrite Hx.
Qed.
(** ** The script against its libraries *)

Section Properties.
Variable generate_content : str -> result str.
Variable json_loads : str -> result json.
Variable PdfReader : bytes -> result (list page).
Variable Document : bytes -> result (list paragraph).

Local Abbreviation parse_response := (parse_response json_loads).
Local Abbreviation get_gemini_response :=
  (get_gemini_response generate_content json_loads).
Local Abbreviation extract_text_from_pdf := (extract_text_from_pdf PdfReader).
Local Abbreviation extract_text_from_docx := (extract_text_from_docx Document).
Local Abbreviation extract_contract_text :=
  (extract_contract_text PdfReader Document).
Local Abbreviation process_file :=
  (process_file generate_content json_loads PdfReader Document).
Local Abbreviation analyze :=
  (analyze generate_content json_loads PdfReader Document).
Local Abbreviation script :=
  (script generate_content json_loads PdfReader Document).

(** *** The response parser *)

(** The parser hands the selected payload to [json.loads] and returns
    what it returns: a match of the pattern always has its group. *)
Lemma parse_response_payload (response_text : str) :
  parse_response response_text = json_loads (selected_payload response_text).
Proof.
  unfold parse_response, selected_payload.
  destruct (re_search fence_pattern response_text) as [caps|] eqn:E.
  - destruct (re_search_sound _ _ E) as (pre & g & post & _ & ->).
    reflexivity.
  - reflexivity.
Qed.

(** What [get_gemini_response] does once the model has replied. *)
Lemma get_gemini_response_reply (input_text response_text : str) :
  generate_content (prompt_head ++ input_text ++ prompt_tail) = Ok response_text ->
  get_gemini_response input_text =
  match json_loads (selected_payload response_text) with
  | Ok v =>
    ([call_generate_content (prompt_head ++ input_text ++ prompt_tail)], Ok v)
  | Raise e =>
    ([call_generate_content (prompt_head ++ input_text ++ prompt_tail);
      st_error [FLit (lit "An error occurred: "); FExn e]], Ok JNull)
  end.
Proof.
  intros Hgen.
  unfold get_gemini_response, call, lift.
  rewrite Hgen, bind_ok. cbn [fst snd].
  rewrite parse_response_payload.
  destruct (json_loads (selected_payload response_text)); reflexivity.
Qed.

(** The function ends without an exception on every input: it returns
    what was parsed or, after a handled error, [None]. *)
Lemma get_gemini_response_returns (input_text : str) :
  exists v, snd (get_gemini_response input_text) = Ok v.
Proof.
  unfold get_gemini_response, call, lift.
  destruct (generate_content _) as [response_text|e].
  - rewrite bind_ok. cbn [fst snd].
    destruct (parse_response response_text) as [v|e].
    + now exists v.
    + now exists JNull.
  - now exists JNull.
Qed.

(** C1.  A reply that is a fenced block, the opening fence with its
    [json] tag, a text [t] that [json.loads] reads as [J], and the
    closing fence: the pattern matches and its group is [t], the parser
    returns [J], and [get_gemini_response] returns [J] after the one call
    to the model, with nothing reported. *)
Theorem fenced_reply_yields_its_json (input_text t : str) (J : json) :
  json_loads t = Ok J ->
  generate_content (prompt_head ++ input_text ++ prompt_tail)
    = Ok (fence_open ++ t ++ fence_close) ->
  re_search fence_pattern (fence_open ++ t ++ fence_close) = Some [t]
  /\ parse_response (fence_open ++ t ++ fence_close) = Ok J
  /\ get_gemini_response input_text =
     ([call_generate_content (prompt_head ++ input_text ++ prompt_tail)], Ok J).
Proof.
  intros Hloads Hgen.
  assert (Hpayload : selected_payload (fence_open ++ t ++ fence_close) = t).
  { unfold selected_payload. now rewrite re_search_fenced. }
  split; [apply re_search_fenced|]. split.
  - now rewrite parse_response_payload, Hpayload.
  - rewrite (get_gemini_response_reply _ _ Hgen), Hpayload, Hloads.
    reflexivity.
Qed.

(** C2.  A reply without a fence that [json.loads] reads as [J]: the
    pattern does not match, the whole reply is the payload, and the
    parser and [get_gemini_response] return [J]. *)
Theorem bare_reply_yields_its_json (input_text response_text : str) (J : json) :
  ~ has_fence response_text ->
  json_loads response_text = Ok J ->
  generate_content (prompt_head ++ input_text ++ prompt_tail) = Ok response_text ->
  re_search fence_pattern response_text = None
  /\ selected_payload response_text = response_text
  /\ parse_response response_text = Ok J
  /\ get_gemini_response input_text =
     ([call_generate_content (prompt_head ++ input_text ++ prompt_tail)], Ok J).
Proof.
  intros Hfence Hloads Hgen.
  assert (Hnone : re_search fence_pattern response_text = None).
  { destruct (re_search fence_pattern response_text) eqn:E; [|reflexivity].
    exfalso. apply Hfence, re_search_fence_iff. congruence. }
  assert (Hpayload : selected_payload response_text = response_text).
  { unfold selected_payload. now rewrite Hnone. }
  repeat split; trivial.
  - now rewrite parse_response_payload, Hpayload.
  - rewrite (get_gemini_response_reply _ _ Hgen), Hpayload, Hloads.
    reflexivity.
Qed.

(** C3.  A reply whose selected payload [json.loads] rejects with [e]:
    the parsing step raises [e], [get_gemini_response] catches it, shows
    the error with [st.error] and returns [None]; no exception leaves
    the function. *)
Theorem malformed_reply_is_handled (input_text response_text : str) (e : exn) :
  generate_content (prompt_head ++ input_text ++ prompt_tail) = Ok response_text ->
  json_loads (selected_payload response_text) = Raise e ->
  parse_response response_text = Raise e
  /\ get_gemini_response input_text =
     ([call_generate_content (prompt_head ++ input_text ++ prompt_tail);
       st_error [FLit (lit "An error occurred: "); FExn e]],
      Ok JNull).
Proof.
  intros Hgen Hloads. split.
  - now rewrite parse_response_payload.
  - now rewrite (get_gemini_response_reply _ _ Hgen), Hloads.
Qed.

(** *** Text extraction *)

Lemma py_or_page_text (p : option str) : py_or p [] = page_text p.
Proof. destruct p as [[|c s]|]; reflexivity. Qed.

(** The loop over the pages, from any text gathered so far. *)
Lemma pdf_pages_loop (pages : list page) (ps : list (option str)) (text : str) :
  map extract_text pages = map Ok ps ->
  for_acc pages
    (fun text page => t <- lift (extract_text page) ;; ret (text ++ py_or t []))
    text
  = ([], Ok (text ++ List.concat (map page_text ps))).
Proof.
  unfold lift, ret.
  revert ps text. induction pages as [|page pages IH]; intros ps text H.
  - destruct ps; [|discriminate]. simpl. now rewrite app_nil_r.
  - destruct ps as [|p ps]; [discriminate|].
    simpl in H. injection H as Hp Hps.
    cbn [for_acc]. rewrite Hp, !bind_nil_ok, (IH ps _ Hps).
    rewrite py_or_page_text. cbn [map List.concat].
    now rewrite <- app_assoc.
Qed.

(** C6.  A PDF whose reader finds the pages [pages], page [i] yielding
    [p_i] (a string, or nothing): [extract_text_from_pdf] returns the
    texts of the pages joined in page order, the empty string standing
    for a page without text. *)
Theorem pdf_text_is_page_concatenation
    (file_obj : bytes) (pages : list page) (ps : list (option str)) :
  PdfReader file_obj = Ok pages ->
  map extract_text pages = map Ok ps ->
  extract_text_from_pdf file_obj =
  ([call_PdfReader file_obj], Ok (List.concat (map page_text ps))).
Proof.
  intros Hreader Hpages.
  unfold extract_text_from_pdf, call. rewrite Hreader, bind_ok.
  cbn [fst snd]. now rewrite (pdf_pages_loop _ _ _ Hpages).
Qed.

(** The loop over the paragraphs, from any text gathered so far. *)
Lemma docx_paragraphs_loop (paragraphs : list paragraph) (text : str) :
  for_acc paragraphs
    (fun text paragraph => ret (text ++ paragraph_text paragraph ++ nl))
    text
  = ([], Ok (text ++ List.concat (map (fun p => paragraph_text p ++ nl) paragraphs))).
Proof.
  unfold ret.
  revert text. induction paragraphs as [|p paragraphs IH]; intros text.
  - simpl. now rewrite app_nil_r.
  - cbn [for_acc]. rewrite bind_nil_ok, IH. cbn [map List.concat].
    now rewrite <- !app_assoc.
Qed.

(** C7.  A DOCX document with the paragraphs [paragraphs]:
    [extract_text_from_docx] returns every paragraph's text followed by
    a newline, the last one too, in order; without paragraphs it returns
    the empty string. *)
Theorem docx_text_is_newline_terminated
    (file_obj : bytes) (paragraphs : list paragraph) :
  Document file_obj = Ok paragraphs ->
  extract_text_from_docx file_obj =
  ([call_Document file_obj],
   Ok (List.concat (map (fun p => paragraph_text p ++ nl) paragraphs)))
  /\ (paragraphs = [] -> snd (extract_text_from_docx file_obj) = Ok []).
Proof.
  intros Hdoc.
  assert (H : extract_text_from_docx file_obj =
              ([call_Document file_obj],
               Ok (List.concat (map (fun p => paragraph_text p ++ nl) paragraphs)))).
  { unfold extract_text_from_docx, call. rewrite Hdoc, bind_ok.
    cbn [fst snd]. now rewrite docx_paragraphs_loop. }
  split; [exact H|].
  intros ->. now rewrite H.
Qed.

(** C8.  A plain-text upload whose bytes are the UTF-8 encoding of [t]:
    the extraction step decodes the bytes and its text is [t] itself. *)
Theorem txt_text_is_utf8_decoding (uploaded_file : UploadedFile) (t : str) :
  type uploaded_file = lit "text/plain" ->
  utf8_encode t = Some (getvalue uploaded_file) ->
  extract_contract_text uploaded_file (getvalue uploaded_file) =
  ([st_info [FLit (lit "Reading text from TXT...")];
    call_decode (getvalue uploaded_file)],
   Ok t).
Proof.
  intros Htype Henc.
  unfold extract_contract_text. rewrite Htype.
  change (str_eqb (lit "text/plain") (lit "application/pdf")) with false.
  change (str_eqb (lit "text/plain")
            (lit "application/vnd.openxmlformats-officedocument.wordprocessingml.document"))
    with false.
  change (str_eqb (lit "text/plain") (lit "text/plain")) with true.
  cbv iota. unfold emit, call. rewrite bind_ok. cbn [fst snd List.app].
  now rewrite (utf8_decode_encode _ _ Henc).
Qed.

(** *** The run of the script *)

(** No exception leaves the processing of a file. *)
Lemma process_file_returns (f : UploadedFile) : snd (process_file f) = Ok tt.
Proof.
  unfold process_file.
  match goal with |- snd (try_except ?m _) = _ => destruct m as [l [[]|e]] end;
    reflexivity.
Qed.

(** A run of the script ends without an exception, whatever the upload
    and the libraries do. *)
Lemma script_returns (uploaded_file : option UploadedFile) (clicked : bool) :
  snd (script uploaded_file clicked) = Ok tt.
Proof.
  unfold script. rewrite bind_ok. cbn [snd].
  destruct clicked; [|reflexivity].
  destruct uploaded_file as [f|]; [|reflexivity].
  unfold analyze. destruct (size f >? size_limit); [reflexivity|].
  apply process_file_returns.
Qed.

(** A run with the button pressed and a file within the ceiling: the
    top of the page, then the processing of the file. *)
Lemma script_processes (f : UploadedFile) :
  size f <= size_limit ->
  script (Some f) true = (page_top ++ fst (process_file f), Ok tt).
Proof.
  intros Hsize. unfold script, analyze.
  rewrite bind_ok. cbv iota beta.
  rewrite (gtb_no _ _ Hsize).
  now rewrite process_file_returns.
Qed.

(** The size error is shown by the size check alone. *)
Lemma process_file_no_size_error (f : UploadedFile) :
  Forall (fun e => e <> size_error) (fst (process_file f)).
Proof.
  unfold process_file, extract_contract_text, get_gemini_response,
    extract_text_from_pdf, extract_text_from_docx.
  trace_inv; try differ.
  - repeat match goal with
           | |- context [if ?c then _ else _] => destruct c
           end; trace_inv; differ.
  - match goal with
    | |- context [if ?c then _ else _] => destruct c
    end; [|trace_inv; differ].
    trace_inv; try differ.
    match goal with
    | |- context [if ?c then _ else _] => destruct c
    end; [|trace_inv; differ].
    unfold render, info_field, clause_checkbox, rule.
    trace_inv; differ.
Qed.

(** C5.  An upload larger than 200 * 1024 * 1024 bytes is rejected with
    the size error and nothing else happens: no call into a document
    library or the codec, no call to the model.  An upload of at most
    that size passes the check: the size error is not shown and the run
    goes on with the processing of the file. *)
Theorem size_ceiling_guards_processing (f : UploadedFile) :
  size_limit = 209715200
  /\ (size f > size_limit ->
      script (Some f) true = (page_top ++ [size_error], Ok tt)
      /\ filter is_extraction_call (fst (script (Some f) true)) = []
      /\ filter is_model_call (fst (script (Some f) true)) = [])
  /\ (size f <= size_limit ->
      script (Some f) true = (page_top ++ fst (process_file f), Ok tt)
      /\ ~ In size_error (fst (script (Some f) true))).
Proof.
  split; [reflexivity|]. split.
  - intros Hsize.
    assert (H : script (Some f) true = (page_top ++ [size_error], Ok tt)).
    { unfold script, analyze. rewrite bind_ok. cbv iota beta.
      rewrite (gtb_yes _ _ Hsize).
      reflexivity. }
    rewrite H. repeat split; reflexivity.
  - intros Hsize. rewrite (script_processes f Hsize).
    split; [reflexivity|]. cbn [fst]. intros Hin.
    apply in_app_or in Hin. destruct Hin as [Hin|Hin].
    + revert Hin. unfold page_top. cbn [In].
      intros [H|[H|[H|[H|[H|[]]]]]]; discriminate H.
    + pose proof (process_file_no_size_error f) as Hall.
      rewrite Forall_forall in Hall. now apply (Hall _ Hin).
Qed.

(** The extraction step does not call the model. *)
Lemma extraction_makes_no_model_call (f : UploadedFile) (data : bytes) :
  Forall (fun e => is_model_call e = false)
    (fst (extract_contract_text f data)).
Proof.
  unfold extract_contract_text, extract_text_from_pdf, extract_text_from_docx.
  repeat match goal with
         | |- context [if ?c then _ else _] => destruct c
         end; trace_inv; reflexivity.
Qed.

(** C9.  An upload within the ceiling whose extraction raises [e]: the
    script catches [e], shows the processing error that names it, and
    the run ends there without an exception and without a call to the
    model.  A plain-text upload whose bytes are the UTF-8 encoding of no
    text is such an upload: its extraction raises [UnicodeDecodeError]. *)
Theorem extraction_failure_is_reported (f : UploadedFile) :
  size f <= size_limit ->
  (forall l e,
     extract_contract_text f (getvalue f) = (l, Raise e) ->
     script (Some f) true = (page_top ++ l ++ [processing_error e], Ok tt)
     /\ filter is_model_call (fst (script (Some f) true)) = [])
  /\ (type f = lit "text/plain" ->
      (forall t, utf8_encode t <> Some (getvalue f)) ->
      extract_contract_text f (getvalue f) =
      ([st_info [FLit (lit "Reading text from TXT...")];
        call_decode (getvalue f)], Raise UnicodeDecodeError)).
Proof.
  intros Hsize. split.
  - intros l e Hx.
    assert (H : script (Some f) true
                = (page_top ++ l ++ [processing_error e], Ok tt)).
    { rewrite (script_processes f Hsize). unfold process_file.
      rewrite Hx, bind_raise, try_except_raise. reflexivity. }
    split; [exact H|]. rewrite H. cbn [fst].
    apply filter_nil_Forall. apply Forall_app. split.
    + repeat constructor.
    + apply Forall_app. split; [|repeat constructor].
      pose proof (extraction_makes_no_model_call f (getvalue f)) as Hl.
      now rewrite Hx in Hl.
  - intros Htype Hdec. apply utf8_decode_raises in Hdec.
    unfold extract_contract_text. rewrite Htype.
    change (str_eqb (lit "text/plain") (lit "application/pdf")) with false.
    change (str_eqb (lit "text/plain")
              (lit "application/vnd.openxmlformats-officedocument.wordprocessingml.document"))
      with false.
    change (str_eqb (lit "text/plain") (lit "text/plain")) with true.
    cbv iota. unfold emit, call. rewrite bind_ok, Hdec. reflexivity.
Qed.

(** C10.  A reply that parses to a value Python takes for false (an
    empty object or list, [null], [false], zero, an empty string): the
    script shows the analysis error inside the spinner and renders
    nothing, although the parser returned the value. *)
Theorem falsy_result_counts_as_failure
    (f : UploadedFile) (l : trace) (contract_text response_text : str) (v : json) :
  size f <= size_limit ->
  extract_contract_text f (getvalue f) = (l, Ok contract_text) ->
  contract_text <> [] ->
  generate_content (prompt_head ++ contract_text ++ prompt_tail) = Ok response_text ->
  parse_response response_text = Ok v ->
  truthy v = false ->
  get_gemini_response contract_text =
  ([call_generate_content (prompt_head ++ contract_text ++ prompt_tail)], Ok v)
  /\ script (Some f) true =
     (page_top ++ l
      ++ [spinner_enter (lit "Analyzing contract... Please wait.⏳");
          call_generate_content (prompt_head ++ contract_text ++ prompt_tail);
          analysis_error;
          spinner_exit],
      Ok tt).
Proof.
  intros Hsize Hx Htext Hgen Hparse Hfalsy.
  assert (Hg : get_gemini_response contract_text =
               ([call_generate_content (prompt_head ++ contract_text ++ prompt_tail)],
                Ok v)).
  { rewrite (get_gemini_response_reply _ _ Hgen).
    rewrite parse_response_payload in Hparse. now rewrite Hparse. }
  split; [exact Hg|].
  rewrite (script_processes f Hsize). unfold process_file.
  rewrite Hx, bind_ok. cbv beta.
  replace (str_eqb contract_text []) with false
    by (unfold str_eqb; now destruct (list_eq_dec Z.eq_dec contract_text [])).
  cbn [negb]. rewrite Hg, bind_ok. cbv beta. cbn [snd fst].
  rewrite Hfalsy. reflexivity.
Qed.

End Properties.

(** ** The presenter *)

(** Under the shape of a result, the category the presenter reads is the
    object [flags_of] names. *)
Lemma category_get (d : list (str * json)) (category : str) :
  category = lit "Commercial" \/ category = lit "Legal" ->
  clauses_shaped d = true ->
  py_get (dict_get d (lit "Clauses Presence") (JDict [])) category (JDict [])
  = Ok (JDict (flags_of d category)).
Proof.
  unfold clauses_shaped, flags_of, dict_get, category_shaped.
  intros Hcat.
  destruct (dict_lookup d (lit "Clauses Presence")) as [[| | | | |l|clauses]|];
    try discriminate; try reflexivity.
  intros H. apply andb_prop in H. destruct H as [Hc Hl].
  cbn [py_get]. unfold dict_get.
  destruct Hcat as [-> | ->].
  - destruct (dict_lookup clauses (lit "Commercial")) as [[]|];
      try discriminate; reflexivity.
  - destruct (dict_lookup clauses (lit "Legal")) as [[]|];
      try discriminate; reflexivity.
Qed.


(** A result without the nested object has the shape. *)
Lemma clauses_absent_shaped (d : list (str * json)) :
  dict_lookup d (lit "Clauses Presence") = None -> clauses_shaped d = true.
Proof. unfold clauses_shaped. now intros ->. Qed.

(** The value the page shows for a key of a result whose fields can be
    shown. *)
Lemma shown_displayable (d : list (str * json)) (key : str) :
  fields_displayable d = true -> In key shown_keys ->
  displayable (dict_get d key NA) = true.
Proof.
  unfold fields_displayable. rewrite forallb_forall.
  intros H Hin. exact (H key Hin).
Qed.

(** Finds a key among the fourteen the page shows. *)
Ltac shown_key :=
  unfold shown_keys, box_colors, narrative_fields;
  cbn [map fst snd List.app In];
  repeat first [left; reflexivity | right].

(** Lets the calls that show a field of a displayable result return. *)
Ltac show_fields Hdisp :=
  repeat match goal with
         | |- context [displayable (dict_get ?d ?k NA)] =>
           rewrite (shown_displayable d k Hdisp) by shown_key
         end.

(** Runs the presenter on a [dict] of the shape [Hshape] states whose
    fields can be shown, as [Hdisp] states. *)
Ltac run_render Hshape Hdisp :=
  unfold render;
  cbn [info_field clause_checkbox bind emit display lift ret with_ for_
       box_colors fst snd List.app py_get rule];
  show_fields Hdisp;
  cbn [info_field clause_checkbox bind emit display lift ret with_ for_
       box_colors fst snd List.app py_get rule];
  rewrite (category_get _ (lit "Commercial") (or_introl eq_refl) Hshape);
  cbn [info_field clause_checkbox bind emit display lift ret with_ for_
       box_colors fst snd List.app py_get rule];
  rewrite (category_get _ (lit "Legal") (or_intror eq_refl) Hshape);
  cbn [info_field clause_checkbox bind emit display lift ret with_ for_
       box_colors fst snd List.app py_get rule].



(** On a [dict] of the shape whose fields can be shown the presenter
    ends without an exception. *)
Lemma render_shaped_returns (d : list (str * json)) :
  clauses_shaped d = true -> fields_displayable d = true ->
  snd (render (JDict d)) = Ok tt.
Proof. intros Hshape Hdisp. run_render Hshape Hdisp. reflexivity. Qed.


(** The two conditions are exactly what the presenter needs: on every
    other [dict] a call that shows a field raises
    [UnicodeEncodeError], or a [get] on a value that is no [dict] raises
    [AttributeError]. *)
Lemma presenter_returns_iff (d : list (str * json)) :
  snd (render (JDict d)) = Ok tt
  <-> clauses_shaped d = true /\ fields_displayable d = true.
Proof.
  split; [|intros [Hshape Hdisp]; now apply render_shaped_returns].
  intros Hok.
  assert (Hdisp : fields_displayable d = true).
  { revert Hok. unfold render, fields_displayable, shown_keys, narrative_fields.
    cbn [info_field clause_checkbox bind emit display lift ret with_ for_
         box_colors fst snd List.app py_get rule map forallb].
    repeat match goal with
           | |- context [if displayable ?v then _ else _] =>
             destruct (displayable v);
             cbn [info_field clause_checkbox bind emit display lift ret with_
                  for_ box_colors fst snd List.app py_get rule andb];
             [|discriminate]
           end.
    reflexivity. }
  split; [|exact Hdisp].
  destruct (clauses_shaped d) eqn:Hshape; [reflexivity|].
  exfalso. revert Hok. unfold render.
  cbn [info_field clause_checkbox bind emit display lift ret with_ for_
       box_colors fst snd List.app py_get rule].
  show_fields Hdisp.
  cbn [info_field clause_checkbox bind emit display lift ret with_ for_
       box_colors fst snd List.app py_get rule].
  unfold clauses_shaped, category_shaped in Hshape.
  destruct (dict_lookup d (lit "Clauses Presence")) as [v|] eqn:Hv;
    [|discriminate].
  replace (dict_get d (lit "Clauses Presence") (JDict [])) with v
    by (unfold dict_get; now rewrite Hv).
  destruct v as [| | | | | |clauses]; try discriminate.
  cbn [info_field clause_checkbox bind emit display lift ret with_ for_
       box_colors fst snd List.app py_get rule].
  unfold dict_get.
  destruct (dict_lookup clauses (lit "Commercial")) as [[]|];
    try discriminate;
    destruct (dict_lookup clauses (lit "Legal")) as [[]|];
    try discriminate;
    cbn [info_field clause_checkbox bind emit display lift ret with_ for_
         box_colors fst snd List.app py_get rule andb] in *;
    discriminate.
Qed.



(** ** Runs on examples *)

Lemma no_match_no_fence (s : str) :
  re_search fence_pattern s = None -> ~ has_fence s.
Proof. intros H Hf. now apply re_search_complete in Hf. Qed.

(** The group is greedy: with two fenced blocks in a reply it runs to the
    last closing fence. *)
Example two_fences_one_group :
  re_search fence_pattern
    (lit "Here: " ++ fence_open ++ lit "{}" ++ fence_close ++ lit " and "
     ++ fence_open ++ lit "[]" ++ fence_close)
  = Some [lit "{}" ++ fence_close ++ lit " and " ++ fence_open ++ lit "[]"].
Proof. vm_compute. reflexivity. Qed.

Lemma fenced_reply_witness :
  let reply := fence_open ++ nda_text ++ fence_close in
  let prompt := prompt_head ++ lit "This lease begins in May." ++ prompt_tail in
  sample_loads nda_text = Ok nda_json
  /\ reply_with reply prompt = Ok reply
  /\ re_search fence_pattern reply = Some [nda_text]
  /\ parse_response sample_loads reply = Ok nda_json
  /\ get_gemini_response (reply_with reply) sample_loads
       (lit "This lease begins in May.")
     = ([call_generate_content prompt], Ok nda_json).
Proof.
  intros reply prompt.
  assert (Hloads : sample_loads nda_text = Ok nda_json) by reflexivity.
  assert (Hgen : reply_with reply prompt = Ok reply) by reflexivity.
  split; [exact Hloads|]. split; [exact Hgen|].
  exact (fenced_reply_yields_its_json (reply_with reply) sample_loads
           (lit "This lease begins in May.") nda_text nda_json Hloads Hgen).
Defined.

Lemma bare_reply_witness :
  let prompt := prompt_head ++ lit "This lease begins in May." ++ prompt_tail in
  ~ has_fence nda_text
  /\ sample_loads nda_text = Ok nda_json
  /\ re_search fence_pattern nda_text = None
  /\ selected_payload nda_text = nda_text
  /\ parse_response sample_loads nda_text = Ok nda_json
  /\ get_gemini_response (reply_with nda_text) sample_loads
       (lit "This lease begins in May.")
     = ([call_generate_content prompt], Ok nda_json).
Proof.
  intros prompt.
  assert (Hfence : ~ has_fence nda_text)
    by (apply no_match_no_fence; reflexivity).
  assert (Hloads : sample_loads nda_text = Ok nda_json) by reflexivity.
  split; [exact Hfence|]. split; [exact Hloads|].
  exact (bare_reply_yields_its_json (reply_with nda_text) sample_loads
           (lit "This lease begins in May.") nda_text nda_json
           Hfence Hloads eq_refl).
Defined.

Lemma malformed_reply_witness :
  let reply := fence_open ++ lit "{oops" ++ fence_close in
  let prompt := prompt_head ++ lit "This lease begins in May." ++ prompt_tail in
  let e := PyException (lit "JSONDecodeError") (lit "Expecting value") in
  sample_loads (selected_payload reply) = Raise e
  /\ parse_response sample_loads reply = Raise e
  /\ get_gemini_response (reply_with reply) sample_loads
       (lit "This lease begins in May.")
     = ([call_generate_content prompt;
         st_error [FLit (lit "An error occurred: "); FExn e]], Ok JNull).
Proof.
  intros reply prompt e.
  assert (Hloads : sample_loads (selected_payload reply) = Raise e)
    by reflexivity.
  split; [exact Hloads|].
  exact (malformed_reply_is_handled (reply_with reply) sample_loads
           (lit "This lease begins in May.") reply e eq_refl Hloads).
Defined.


Lemma size_ceiling_witness :
  let run := script (reply_with nda_text) sample_loads pdf_corrupt (docx_with []) in
  209715201 > size_limit
  /\ run (Some (pdf_file 209715201 [])) true = (page_top ++ [size_error], Ok tt)
  /\ 209715200 <= size_limit
  /\ ~ In size_error (fst (run (Some (pdf_file 209715200 [])) true)).
Proof.
  intros run.
  assert (Hover : size (pdf_file 209715201 []) > size_limit) by reflexivity.
  assert (Hfits : size (pdf_file 209715200 []) <= size_limit)
    by (intros H; discriminate H).
  split; [exact Hover|]. split.
  - exact (proj1 (proj1 (proj2 (size_ceiling_guards_processing
             (reply_with nda_text) sample_loads pdf_corrupt (docx_with [])
             (pdf_file 209715201 []))) Hover)).
  - split; [exact Hfits|].
    exact (proj2 (proj2 (proj2 (size_ceiling_guards_processing
             (reply_with nda_text) sample_loads pdf_corrupt (docx_with [])
             (pdf_file 209715200 []))) Hfits)).
Defined.

Lemma pdf_text_witness :
  let pages := [ {| extract_text := Ok (Some (lit "Lease ")) |};
                 {| extract_text := Ok None |};
                 {| extract_text := Ok (Some []) |};
                 {| extract_text := Ok (Some (lit "of a flat")) |} ] in
  pdf_with pages [x25; x50; x44; x46] = Ok pages
  /\ extract_text_from_pdf (pdf_with pages) [x25; x50; x44; x46]
     = ([call_PdfReader [x25; x50; x44; x46]], Ok (lit "Lease of a flat")).
Proof.
  intros pages. split; [reflexivity|].
  exact (pdf_text_is_page_concatenation (pdf_with pages) [x25; x50; x44; x46]
           pages [Some (lit "Lease "); None; Some []; Some (lit "of a flat")]
           eq_refl eq_refl).
Defined.

Lemma docx_text_witness :
  let paragraphs := [ {| paragraph_text := lit "Lease" |};
                      {| paragraph_text := [] |};
                      {| paragraph_text := lit "of a flat" |} ] in
  docx_with paragraphs [x50; x4b] = Ok paragraphs
  /\ extract_text_from_docx (docx_with paragraphs) [x50; x4b]
     = ([call_Document [x50; x4b]],
        Ok (lit "Lease" ++ nl ++ nl ++ lit "of a flat" ++ nl)).
Proof.
  intros paragraphs. split; [reflexivity|].
  exact (proj1 (docx_text_is_newline_terminated (docx_with paragraphs)
                  [x50; x4b] paragraphs eq_refl)).
Defined.

Lemma txt_text_witness :
  let data := list_byte_of_string "Café, 3 € ✓" in
  type (txt_file data) = lit "text/plain"
  /\ utf8_encode (lit "Café, 3 € ✓") = Some (getvalue (txt_file data))
  /\ extract_contract_text pdf_corrupt (docx_with []) (txt_file data) data
     = ([st_info [FLit (lit "Reading text from TXT...")]; call_decode data],
        Ok (lit "Café, 3 € ✓")).
Proof.
  intros data.
  assert (Henc : utf8_encode (lit "Café, 3 € ✓") = Some (getvalue (txt_file data)))
    by reflexivity.
  split; [reflexivity|]. split; [exact Henc|].
  exact (txt_text_is_utf8_decoding pdf_corrupt (docx_with []) (txt_file data)
           (lit "Café, 3 € ✓") eq_refl Henc).
Defined.

Lemma extraction_failure_witness :
  let run := script (reply_with nda_text) sample_loads pdf_corrupt (docx_with []) in
  let f := txt_file [x4c; xff] in
  size f <= size_limit
  /\ (forall t, utf8_encode t <> Some (getvalue f))
  /\ run (Some f) true
     = (page_top
        ++ [st_info [FLit (lit "Reading text from TXT...")];
            call_decode [x4c; xff]]
        ++ [processing_error UnicodeDecodeError], Ok tt)
  /\ filter is_model_call (fst (run (Some f) true)) = [].
Proof.
  intros run f.
  assert (Hsize : size f <= size_limit) by (intros H; discriminate H).
  assert (Hbad : forall t, utf8_encode t <> Some (getvalue f))
    by (apply utf8_decode_raises; reflexivity).
  destruct (extraction_failure_is_reported (reply_with nda_text) sample_loads
              pdf_corrupt (docx_with []) f Hsize) as [Hcaught Htxt].
  split; [exact Hsize|]. split; [exact Hbad|].
  exact (Hcaught _ _ (Htxt eq_refl Hbad)).
Defined.

Lemma falsy_result_witness :
  let run := script (reply_with (lit "{}")) sample_loads pdf_corrupt (docx_with []) in
  let f := txt_file (list_byte_of_string "Lease") in
  let prompt := prompt_head ++ lit "Lease" ++ prompt_tail in
  parse_response sample_loads (lit "{}") = Ok (JDict [])
  /\ truthy (JDict []) = false
  /\ run (Some f) true
     = (page_top
        ++ [st_info [FLit (lit "Reading text from TXT...")];
            call_decode (list_byte_of_string "Lease")]
        ++ [spinner_enter (lit "Analyzing contract... Please wait.⏳");
            call_generate_content prompt;
            analysis_error;
            spinner_exit], Ok tt).
Proof.
  intros run f prompt.
  assert (Hparse : parse_response sample_loads (lit "{}") = Ok (JDict []))
    by reflexivity.
  split; [exact Hparse|]. split; [reflexivity|].
  assert (Hsize : size f <= size_limit) by (intros H; discriminate H).
  assert (Htext : lit "Lease" <> []) by discriminate.
  exact (proj2 (falsy_result_counts_as_failure (reply_with (lit "{}"))
                  sample_loads pdf_corrupt (docx_with []) f _ (lit "Lease")
                  (lit "{}") (JDict []) Hsize eq_refl Htext eq_refl Hparse
                  eq_refl)).
Defined.

(** * Further properties *)

(** ** The fence that is taken *)

Section StarExtent.
Variable k : str -> option (list str).

Lemma dot_star_None (s g r : str) :
  dot_star k s = None -> s = g ++ r -> k r = None.
Proof.
  intros Hnone ->. destruct (k r) as [caps|] eqn:E; [|reflexivity].
  now contradiction (dot_star_complete k g r caps E).
Qed.

(** Nothing longer than the group lets the rest of the pattern match. *)
Lemma dot_star_maximal (s g : str) (caps : list str) :
  dot_star k s = Some (g, caps) ->
  forall g' r', s = g' ++ r' -> (List.length g < List.length g')%nat ->
  k r' = None.
Proof.
  revert g caps. induction s as [|c s IH]; intros g caps H g' r' Hs Hlen.
  - destruct g'; [|discriminate]. simpl in Hlen. lia.
  - simpl in H. destruct (dot_star k s) as [[g1 caps1]|] eqn:E.
    + injection H as <- <-. destruct g' as [|c' g']; [simpl in Hlen; lia|].
      injection Hs as _ Hs. simpl in Hlen.
      apply (IH g1 caps1 eq_refl g' r' Hs). lia.
    + destruct g' as [|c' g']; [simpl in Hlen; lia|].
      injection Hs as _ Hs. exact (dot_star_None s g' r' E Hs).
Qed.

(** The group ends where the rest of the pattern matches for the last
    time. *)
Lemma dot_star_last (t r : str) (caps : list str) :
  k r = Some caps ->
  (forall a b, r = a ++ b -> a <> [] -> k b = None) ->
  dot_star k (t ++ r) = Some (t, caps).
Proof.
  intros Hr Hlast.
  assert (Hnone : forall b a, r = a ++ b -> a <> [] -> dot_star k b = None).
  { induction b as [|x b IH]; intros a Ha Hne; simpl.
    - now rewrite (Hlast a [] Ha Hne).
    - rewrite (IH (a ++ [x])).
      + now rewrite (Hlast a (x :: b) Ha Hne).
      + now rewrite <- app_assoc.
      + now destruct a. }
  induction t as [|x t IH]; simpl.
  - destruct r as [|x r]; simpl.
    + now rewrite Hr.
    + rewrite (Hnone r [x] eq_refl) by discriminate. now rewrite Hr.
  - now rewrite IH.
Qed.
End StarExtent.

(** The search takes the leftmost start at which the pattern matches. *)
Lemma re_search_leftmost (p : pattern) (s : str) (caps : list str) :
  re_search p s = Some caps ->
  exists pre s',
    s = pre ++ s' /\ match_here p s' = Some caps
    /\ forall a b, pre = a ++ b -> b <> [] -> match_here p (b ++ s') = None.
Proof.
  induction s as [|c s IH]; rewrite re_search_eq;
    destruct (match_here p _) as [caps'|] eqn:E; intros H.
  - injection H as <-. exists [], []. repeat split; trivial.
    intros a b Hab. now destruct a, b.
  - discriminate.
  - injection H as <-. exists [], (c :: s). repeat split; trivial.
    intros a b Hab. now destruct a, b.
  - destruct (IH H) as (pre & s' & -> & Hm & Hleft).
    exists (c :: pre), s'. repeat split; trivial.
    intros a b Hab Hb. destruct a as [|c' a].
    + simpl in Hab. subst b. exact E.
    + injection Hab as _ Hab. now apply (Hleft a b).
Qed.

Lemma re_search_at (p : pattern) (pre s' : str) (caps : list str) :
  (forall a b, pre = a ++ b -> b <> [] -> match_here p (b ++ s') = None) ->
  match_here p s' = Some caps ->
  re_search p (pre ++ s') = Some caps.
Proof.
  intros Hleft Hm. induction pre as [|c pre IH]; rewrite re_search_eq.
  - simpl. now rewrite Hm.
  - rewrite (Hleft [] (c :: pre) eq_refl) by discriminate.
    simpl. apply IH. intros a b -> Hb.
    now apply (Hleft (c :: a) b).
Qed.

(** A match at the head of a text, with the extent of its group. *)
Lemma match_here_fence_extent (s : str) (caps : list str) :
  match_here fence_pattern s = Some caps ->
  exists g post,
    s = fence_open ++ g ++ fence_close ++ post /\ caps = [g] /\ last_close post.
Proof.
  unfold fence_pattern. cbn [match_here].
  destruct (strip_prefix fence_open s) as [s'|] eqn:E; [|discriminate].
  apply strip_prefix_Some in E. subst s.
  destruct (dot_star _ s') as [[g caps']|] eqn:D; [|discriminate].
  simpl. intros H. injection H as <-.
  pose proof (dot_star_maximal _ _ _ _ D) as Hmax.
  apply dot_star_sound in D. destruct D as (r & -> & Hr).
  destruct (strip_prefix fence_close r) as [post|] eqn:E; [|discriminate].
  apply strip_prefix_Some in E. subst r. injection Hr as <-.
  exists g, post. repeat split.
  intros a b Hab. destruct a as [|x a]; [reflexivity|]. exfalso.
  specialize (Hmax (g ++ x :: a) (fence_close ++ b)).
  rewrite strip_prefix_app in Hmax.
  enough (Some (@nil str) = None) by discriminate.
  apply Hmax.
  - rewrite Hab. now rewrite <- app_assoc.
  - rewrite length_app. simpl. lia.
Qed.

Lemma match_here_fence_last (g post : str) :
  last_close post ->
  match_here fence_pattern (fence_open ++ g ++ fence_close ++ post) = Some [g].
Proof.
  intros Hlast. unfold fence_pattern. cbn [match_here].
  rewrite strip_prefix_app.
  match goal with
  | |- context [dot_star ?k _] =>
    rewrite (dot_star_last k g (fence_close ++ post) [])
  end.
  - reflexivity.
  - now rewrite strip_prefix_app.
  - intros a b Hab Ha. cbv beta.
    destruct (strip_prefix fence_close b) as [post'|] eqn:E; [|reflexivity].
    apply strip_prefix_Some in E. subst b.
    now contradiction Ha; apply (Hlast a post').
Qed.

(** Between the first opening fence and the last closing fence lies the
    group. *)
Lemma re_search_between (pre g post : str) :
  first_open pre -> last_close post ->
  re_search fence_pattern (pre ++ fence_open ++ g ++ fence_close ++ post)
  = Some [g].
Proof.
  intros Hfirst Hlast.
  apply re_search_at; [|now apply match_here_fence_last].
  intros a b -> Hb.
  destruct (match_here fence_pattern _) as [caps|] eqn:E; [|reflexivity].
  exfalso. apply match_here_fence_sound in E.
  destruct E as (g' & post' & E & _).
  rewrite (app_assoc b) in E. apply app_eq_app in E.
  destruct E as [l [[Hb' Hl]|[Hf Hl]]].
  - assert (Hl0 : l = []).
    { apply (Hfirst a l). now rewrite <- app_assoc, Hb'. }
    subst l. rewrite app_nil_r in Hb'.
    apply (f_equal (@List.length Z)) in Hb'.
    rewrite length_app in Hb'. destruct b; [congruence|].
    cbn [List.length] in Hb'. lia.
  - apply (f_equal (@List.length Z)) in Hf.
    rewrite !length_app in Hf. destruct b; [congruence|].
    cbn [List.length] in Hf. lia.
Qed.

(** X1.  The pattern matches with the group [g] exactly when the reply
    is some text, an opening fence, [g], a closing fence and some text,
    where the opening fence is the first of the reply and the closing
    fence the last: the payload runs from the first opening fence to the
    last closing fence, over any fences between them. *)
Theorem payload_runs_from_first_to_last_fence (s g : str) :
  re_search fence_pattern s = Some [g] <->
  exists pre post,
    s = pre ++ fence_open ++ g ++ fence_close ++ post
    /\ first_open pre /\ last_close post.
Proof.
  split.
  - intros H. apply re_search_leftmost in H.
    destruct H as (pre & s' & -> & Hm & Hleft).
    apply match_here_fence_extent in Hm.
    destruct Hm as (g' & post & -> & Hg & Hlast).
    injection Hg as <-. exists pre, post. repeat split; trivial.
    intros a b Hab. destruct b as [|x b]; [reflexivity|]. exfalso.
    apply app_eq_app in Hab. destruct Hab as [l [[Hpre Hl]|[Ha Hl]]].
    + destruct l as [|y l].
      * apply (f_equal (@List.length Z)) in Hl.
        rewrite !length_app in Hl. cbn [List.length] in Hl. lia.
      * specialize (Hleft a (y :: l) Hpre).
        apply (match_here_fence_complete ((x :: b) ++ g) post).
        rewrite <- app_assoc, (app_assoc fence_open (x :: b)), Hl.
        rewrite <- app_assoc. apply Hleft. discriminate.
    + apply (f_equal (@List.length Z)) in Hl.
      rewrite !length_app in Hl. cbn [List.length] in Hl. lia.
  - intros (pre & post & -> & Hfirst & Hlast).
    now apply re_search_between.
Qed.

(** Text without a backtick holds no opening fence. *)
Lemma first_open_without_backtick (pre : str) :
  Forall (fun c => c <> 96) pre -> first_open pre.
Proof.
  intros Hpre a b Hab. apply app_eq_app in Hab.
  destruct Hab as [l [[Hp Hl]|[Ha Hl]]].
  - destruct l as [|y l].
    + rewrite app_nil_l, <- (app_nil_r fence_open) in Hl at 1.
      rewrite <- (app_nil_r fence_open) in Hl. rewrite <- app_assoc in Hl.
      apply app_inv_head in Hl. now destruct b.
    + exfalso. change fence_open with (96 :: tl fence_open) in Hl.
      injection Hl as Hy _. subst pre. rewrite Forall_app in Hpre.
      destruct Hpre as [_ Hy']. inversion Hy'. congruence.
  - apply (f_equal (@List.length Z)) in Hl.
    rewrite !length_app in Hl. destruct b; [reflexivity|].
    cbn [List.length] in Hl. lia.
Qed.

(** Text without a backtick holds no closing fence. *)
Lemma last_close_without_backtick (post : str) :
  Forall (fun c => c <> 96) post -> last_close post.
Proof.
  intros Hpost a b Hab.
  assert (Hno : forall x y, post <> x ++ fence_close ++ y).
  { intros x y ->. rewrite !Forall_app in Hpost.
    destruct Hpost as (_ & Hf & _). change fence_close with [10; 96; 96; 96] in Hf.
    inversion Hf as [|? ? _ Hf']. inversion Hf'. congruence. }
  destruct a as [|c a]; [reflexivity|]. exfalso.
  apply app_eq_app in Hab. destruct Hab as [l [[Hf Hl]|[Ha Hl]]].
  - change fence_close with [10; 96; 96; 96] in Hf, Hl.
    destruct l as [|y l].
    + apply (Hno [] b). symmetry. exact Hl.
    + injection Hl as Hy _. subst y.
      destruct a as [|? [|? [|? [|? ?]]]]; simpl in Hf; congruence.
  - now apply (Hno l b).
Qed.

(** ** Selecting calls of a trace *)

Lemma snd_bind {A B} (m : M A) (f : A -> M B) :
  snd (bind m f) =
  match snd m with
  | Ok a => snd (f a)
  | Raise e => Raise e
  end.
Proof. destruct m as [l [a|e]]; simpl; [now destruct (f a)|reflexivity]. Qed.

Lemma snd_with {A} (enter exit : event) (m : M A) :
  snd (with_ enter exit m) = snd m.
Proof. now destruct m. Qed.

Section Select.
Context {B : Type} (sel : event -> list B).

Lemma select_bind {A C} (m : M A) (f : A -> M C) :
  flat_map sel (fst (bind m f)) =
  flat_map sel (fst m)
  ++ match snd m with
     | Ok a => flat_map sel (fst (f a))
     | Raise _ => []
     end.
Proof.
  destruct m as [l [a|e]]; simpl.
  - destruct (f a) as [l' r]. simpl. apply flat_map_app.
  - now rewrite app_nil_r.
Qed.

Lemma select_try_except {A} (m : M A) (h : exn -> M A) :
  flat_map sel (fst (try_except m h)) =
  flat_map sel (fst m)
  ++ match snd m with
     | Ok _ => []
     | Raise e => flat_map sel (fst (h e))
     end.
Proof.
  destruct m as [l [a|e]]; simpl.
  - now rewrite app_nil_r.
  - destruct (h e) as [l' r]. simpl. apply flat_map_app.
Qed.

Lemma select_with {A} (enter exit : event) (m : M A) :
  flat_map sel (fst (with_ enter exit m)) =
  sel enter ++ flat_map sel (fst m) ++ sel exit.
Proof.
  destruct m as [l r]. simpl. rewrite flat_map_app. simpl.
  now rewrite app_nil_r.
Qed.

Lemma select_none (t : trace) :
  Forall (fun e => sel e = []) t -> flat_map sel t = [].
Proof.
  induction 1 as [|e t He _ IH]; simpl; [reflexivity|]. now rewrite He, IH.
Qed.
End Select.

Lemma filter_as_select (p : event -> bool) (t : trace) :
  filter p t = flat_map (fun e => if p e then [e] else []) t.
Proof.
  induction t as [|e t IH]; simpl; [reflexivity|].
  rewrite IH. now destruct (p e).
Qed.

Lemma str_eqb_eq (a b : str) : str_eqb a b = true <-> a = b.
Proof.
  unfold str_eqb. destruct (list_eq_dec Z.eq_dec a b); split; congruence.
Qed.

Lemma str_eqb_neq (a b : str) : a <> b -> str_eqb a b = false.
Proof.
  intros H. destruct (str_eqb a b) eqn:E; [|reflexivity].
  now apply str_eqb_eq in E.
Qed.

(** ** Runs of the script, path by path *)

Section Runs.
Variable generate_content : str -> result str.
Variable json_loads : str -> result json.
Variable PdfReader : bytes -> result (list page).
Variable Document : bytes -> result (list paragraph).

Local Abbreviation parse_response := (parse_response json_loads).
Local Abbreviation get_gemini_response :=
  (get_gemini_response generate_content json_loads).
Local Abbreviation extract_text_from_pdf := (extract_text_from_pdf PdfReader).
Local Abbreviation extract_text_from_docx := (extract_text_from_docx Document).
Local Abbreviation extract_contract_text :=
  (extract_contract_text PdfReader Document).
Local Abbreviation process_file :=
  (process_file generate_content json_loads PdfReader Document).
Local Abbreviation analyze :=
  (analyze generate_content json_loads PdfReader Document).
Local Abbreviation script :=
  (script generate_content json_loads PdfReader Document).

(** What [get_gemini_response] does when the call to the model raises. *)
Lemma get_gemini_response_model_raises (input_text : str) (e : exn) :
  generate_content (prompt_head ++ input_text ++ prompt_tail) = Raise e ->
  get_gemini_response input_text =
  ([call_generate_content (prompt_head ++ input_text ++ prompt_tail);
    st_error [FLit (lit "An error occurred: "); FExn e]], Ok JNull).
Proof.
  intros Hgen. unfold get_gemini_response, call, lift.
  now rewrite Hgen, bind_raise, try_except_raise.
Qed.

(** The two ways [get_gemini_response] ends. *)
Lemma get_gemini_response_cases (input_text : str) :
  let prompt := prompt_head ++ input_text ++ prompt_tail in
  (exists v, get_gemini_response input_text = ([call_generate_content prompt], Ok v))
  \/ (exists e, get_gemini_response input_text =
                ([call_generate_content prompt;
                  st_error [FLit (lit "An error occurred: "); FExn e]], Ok JNull)).
Proof.
  intros prompt.
  destruct (generate_content prompt) as [response_text|e] eqn:Hgen.
  - rewrite (get_gemini_response_reply _ _ _ _ Hgen).
    destruct (json_loads (selected_payload response_text)) as [v|e].
    + left. now exists v.
    + right. now exists e.
  - right. exists e. now apply get_gemini_response_model_raises.
Qed.

(** The processing of a file whose text was extracted and sent: the
    spinner around the model call and what follows it, and after the
    spinner the processing error if the presenter raised. *)
Lemma process_file_analysed
    (f : UploadedFile) (l lg : trace) (contract_text : str) (v : json) :
  extract_contract_text f (getvalue f) = (l, Ok contract_text) ->
  contract_text <> [] ->
  get_gemini_response contract_text = (lg, Ok v) ->
  process_file f =
  if truthy v
  then (l ++ (spinner_enter (lit "Analyzing contract... Please wait.⏳")
              :: (lg ++ fst (render v)) ++ [spinner_exit])
          ++ match snd (render v) with
             | Ok _ => []
             | Raise e => [processing_error e]
             end, Ok tt)
  else (l ++ spinner_enter (lit "Analyzing contract... Please wait.⏳")
          :: (lg ++ [analysis_error]) ++ [spinner_exit], Ok tt).
Proof.
  intros Hx Htext Hg. unfold process_file.
  rewrite Hx, bind_ok. cbv beta. rewrite (str_eqb_neq _ _ Htext).
  cbn [negb]. rewrite Hg, bind_ok. cbv beta. cbn [fst snd].
  destruct (truthy v).
  - destruct (render v) as [lr [[]|e]]; cbn [fst snd with_ try_except emit].
    + now rewrite app_nil_r.
    + now rewrite <- app_assoc.
  - reflexivity.
Qed.

(** The processing of a file whose extraction gave no text. *)
Lemma process_file_no_text (f : UploadedFile) (l : trace) :
  extract_contract_text f (getvalue f) = (l, Ok []) ->
  process_file f = (l ++ [no_text_error], Ok tt).
Proof.
  intros Hx. unfold process_file. rewrite Hx, bind_ok. cbv beta.
  change (str_eqb [] []) with true. reflexivity.
Qed.

(** The processing of a file whose extraction raised. *)
Lemma process_file_extraction_raises (f : UploadedFile) (l : trace) (e : exn) :
  extract_contract_text f (getvalue f) = (l, Raise e) ->
  process_file f = (l ++ [processing_error e], Ok tt).
Proof.
  intros Hx. unfold process_file.
  now rewrite Hx, bind_raise, try_except_raise.
Qed.

(** The presenter shows no error, calls no model and opens no spinner. *)
Lemma render_quiet (v : json) :
  Forall (fun e => is_error e = false /\ is_model_call e = false
                   /\ is_spinner e = false) (fst (render v)).
Proof.
  unfold render, info_field, clause_checkbox, rule.
  trace_inv; repeat split; reflexivity.
Qed.

(** The extraction step shows no error, calls no model and opens no
    spinner. *)
Lemma extraction_quiet (f : UploadedFile) (data : bytes) :
  Forall (fun e => is_error e = false /\ is_model_call e = false
                   /\ is_spinner e = false)
    (fst (extract_contract_text f data)).
Proof.
  unfold extract_contract_text, extract_text_from_pdf, extract_text_from_docx.
  repeat match goal with
         | |- context [if ?c then _ else _] => destruct c
         end; trace_inv; repeat split; reflexivity.
Qed.

Lemma filter_none (p : event -> bool) (t : trace) (Q : event -> Prop) :
  (forall e, Q e -> p e = false) -> Forall Q t -> filter p t = [].
Proof.
  intros HQ Ht. apply filter_nil_Forall.
  eapply Forall_impl; [exact HQ | exact Ht].
Qed.

(** What the extraction step puts on the trace is no model call. *)
Lemma extraction_model_calls (f : UploadedFile) (l : trace) (r : result str) :
  extract_contract_text f (getvalue f) = (l, r) ->
  filter is_model_call l = [].
Proof.
  intros Hx. pose proof (extraction_quiet f (getvalue f)) as Hl.
  rewrite Hx in Hl. eapply filter_none; [|exact Hl]. now intros e (_ & H & _).
Qed.

(** A text that is not empty goes to the model, once. *)
Lemma model_called_with_text (f : UploadedFile) (l : trace) (contract_text : str) :
  extract_contract_text f (getvalue f) = (l, Ok contract_text) ->
  contract_text <> [] ->
  filter is_model_call (fst (process_file f)) =
  [call_generate_content (prompt_head ++ contract_text ++ prompt_tail)].
Proof.
  intros Hx Htext. pose proof (extraction_model_calls f l _ Hx) as Hl0.
  assert (Hr : forall v, filter is_model_call (fst (render v)) = [])
    by (intros v; eapply filter_none; [|apply render_quiet];
        now intros e (_ & H & _)).
  destruct (get_gemini_response_cases contract_text) as [[v Hg]|[e Hg]];
    rewrite (process_file_analysed f l _ _ _ Hx Htext Hg).
  - destruct (truthy v); cbn [fst]; rewrite !filter_app, Hl0.
    + cbn [filter is_model_call List.app]. rewrite filter_app, Hr.
      destruct (snd (render v)); reflexivity.
    + reflexivity.
  - cbn [truthy fst]. rewrite filter_app, Hl0. reflexivity.
Qed.

(** The model calls of the processing of a file. *)
Lemma process_file_model_calls (f : UploadedFile) :
  filter is_model_call (fst (process_file f)) = []
  \/ exists l contract_text,
       extract_contract_text f (getvalue f) = (l, Ok contract_text)
       /\ contract_text <> []
       /\ filter is_model_call (fst (process_file f)) =
          [call_generate_content (prompt_head ++ contract_text ++ prompt_tail)].
Proof.
  destruct (extract_contract_text f (getvalue f)) as [l [contract_text|e]] eqn:Hx.
  - destruct contract_text as [|c contract_text].
    + left. rewrite (process_file_no_text f l Hx). cbn [fst].
      rewrite filter_app, (extraction_model_calls f l _ Hx). reflexivity.
    + right. exists l, (c :: contract_text).
      split; [reflexivity|]. split; [discriminate|].
      apply (model_called_with_text f l _ Hx). discriminate.
  - left. rewrite (process_file_extraction_raises f l e Hx). cbn [fst].
    rewrite filter_app, (extraction_model_calls f l _ Hx). reflexivity.
Qed.

(** X4.  A run calls the model at most once.  It calls it only when the
    button was pressed for a file within the ceiling whose extraction
    gave a text that is not empty, and then with the prompt built around
    that very text. *)
Theorem model_is_called_at_most_once
    (uploaded_file : option UploadedFile) (clicked : bool) :
  filter is_model_call (fst (script uploaded_file clicked)) = []
  \/ exists f l contract_text,
       uploaded_file = Some f /\ clicked = true /\ size f <= size_limit
       /\ extract_contract_text f (getvalue f) = (l, Ok contract_text)
       /\ contract_text <> []
       /\ filter is_model_call (fst (script uploaded_file clicked)) =
          [call_generate_content (prompt_head ++ contract_text ++ prompt_tail)].
Proof.
  unfold script. rewrite bind_ok. cbn [fst]. rewrite filter_app.
  change (filter is_model_call page_top) with (@nil event). cbn [List.app].
  destruct clicked; [|now left].
  destruct uploaded_file as [f|]; [|now left].
  unfold analyze. destruct (Z.leb_spec (size f) size_limit) as [Hs|Hs].
  - rewrite (gtb_no _ _ Hs).
    destruct (process_file_model_calls f) as [H|(l & t & Hx & Ht & H)].
    + now left.
    + right. now exists f, l, t.
  - rewrite gtb_yes by lia. now left.
Qed.

(** X5.  A file within the ceiling whose declared type is none of the
    three the script knows: no text is extracted, no library is called,
    and the run shows the no-text error. *)
Theorem unknown_type_yields_no_text (f : UploadedFile) :
  size f <= size_limit ->
  type f <> lit "application/pdf" ->
  type f <> lit "application/vnd.openxmlformats-officedocument.wordprocessingml.document" ->
  type f <> lit "text/plain" ->
  extract_contract_text f (getvalue f) = ([], Ok [])
  /\ script (Some f) true = (page_top ++ [no_text_error], Ok tt).
Proof.
  intros Hsize Hpdf Hdocx Htxt.
  assert (Hx : extract_contract_text f (getvalue f) = ([], Ok [])).
  { unfold extract_contract_text.
    now rewrite (str_eqb_neq _ _ Hpdf), (str_eqb_neq _ _ Hdocx),
      (str_eqb_neq _ _ Htxt). }
  split; [exact Hx|].
  rewrite (script_processes _ _ _ _ f Hsize).
  now rewrite (process_file_no_text f [] Hx).
Qed.

(** The loop over pages without text leaves the text as it was. *)
Lemma blank_pages_loop (pages : list page) (text : str) :
  Forall blank_page pages ->
  for_acc pages
    (fun text page => t <- lift (extract_text page) ;; ret (text ++ py_or t []))
    text
  = ([], Ok text).
Proof.
  unfold lift, ret. intros H. revert text.
  induction H as [|page pages [Hp|Hp] _ IH]; intros text; cbn [for_acc].
  - reflexivity.
  - rewrite Hp, !bind_nil_ok, IH. cbn [py_or]. now rewrite app_nil_r.
  - rewrite Hp, !bind_nil_ok, IH. cbn [py_or]. now rewrite app_nil_r.
Qed.

(** X6.  A PDF within the ceiling none of whose pages has text (a
    scan): the extracted text is empty, the model is not called, and the
    run shows the no-text error. *)
Theorem scanned_pdf_yields_no_text (f : UploadedFile) (pages : list page) :
  size f <= size_limit ->
  type f = lit "application/pdf" ->
  PdfReader (getvalue f) = Ok pages ->
  Forall blank_page pages ->
  script (Some f) true =
  (page_top
   ++ [st_info [FLit (lit "Extracting text from PDF...")];
       call_PdfReader (getvalue f);
       no_text_error], Ok tt).
Proof.
  intros Hsize Htype Hreader Hblank.
  assert (Hx : extract_contract_text f (getvalue f) =
               ([st_info [FLit (lit "Extracting text from PDF...")];
                 call_PdfReader (getvalue f)], Ok [])).
  { unfold extract_contract_text. rewrite Htype.
    change (str_eqb (lit "application/pdf") (lit "application/pdf")) with true.
    cbv iota. unfold extract_text_from_pdf, emit, call.
    rewrite Hreader, !bind_ok. cbn [fst snd].
    now rewrite (blank_pages_loop pages [] Hblank). }
  rewrite (script_processes _ _ _ _ f Hsize).
  now rewrite (process_file_no_text f _ Hx).
Qed.

(** X7.  A DOCX within the ceiling with at least one paragraph: the
    extracted text is not empty, even when every paragraph is, and the
    model is called once with the prompt built around it. *)
Theorem docx_with_a_paragraph_reaches_the_model
    (f : UploadedFile) (p : paragraph) (ps : list paragraph) :
  size f <= size_limit ->
  type f = lit "application/vnd.openxmlformats-officedocument.wordprocessingml.document" ->
  Document (getvalue f) = Ok (p :: ps) ->
  let contract_text :=
    List.concat (map (fun p => paragraph_text p ++ nl) (p :: ps)) in
  contract_text <> []
  /\ snd (extract_contract_text f (getvalue f)) = Ok contract_text
  /\ filter is_model_call (fst (script (Some f) true)) =
     [call_generate_content (prompt_head ++ contract_text ++ prompt_tail)].
Proof.
  intros Hsize Htype Hdoc contract_text.
  assert (Htext : contract_text <> []).
  { unfold contract_text. cbn [map List.concat]. intros H.
    apply app_eq_nil in H. destruct H as [H _].
    apply app_eq_nil in H. destruct H as [_ H]. discriminate. }
  assert (Hx : extract_contract_text f (getvalue f) =
               ([st_info [FLit (lit "Extracting text from DOCX...")];
                 call_Document (getvalue f)], Ok contract_text)).
  { unfold extract_contract_text. rewrite Htype.
    match goal with
    | |- context [str_eqb ?a (lit "application/pdf")] =>
      change (str_eqb a (lit "application/pdf")) with false;
      change (str_eqb a a) with true
    end.
    cbv iota. unfold extract_text_from_docx, emit, call.
    rewrite Hdoc, !bind_ok. cbn [fst snd].
    now rewrite docx_paragraphs_loop. }
  split; [exact Htext|]. split; [now rewrite Hx|].
  rewrite (script_processes _ _ _ _ f Hsize). cbn [fst].
  rewrite filter_app. change (filter is_model_call page_top) with (@nil event).
  exact (model_called_with_text f _ _ Hx Htext).
Qed.

Lemma for_acc_app {A S} (xs ys : list A) (step : S -> A -> M S) (acc : S) :
  for_acc (xs ++ ys) step acc =
  (acc' <- for_acc xs step acc ;; for_acc ys step acc').
Proof.
  revert acc. induction xs as [|x xs IH]; intros acc; cbn [for_acc List.app].
  - unfold ret. now rewrite bind_nil_ok.
  - destruct (step acc x) as [l [a|e]]; [|reflexivity].
    rewrite !bind_ok, IH. cbn [fst snd].
    destruct (for_acc xs step a) as [l1 [a1|e1]]; cbn [bind fst snd].
    + destruct (for_acc ys step a1) as [l2 r2]. cbn [fst snd].
      now rewrite app_assoc.
    + reflexivity.
Qed.

(** X8.  A PDF one of whose pages raises in [extract_text()] after
    pages that gave their text: the extraction raises that exception,
    and the text of the pages before it is not returned. *)
Theorem failing_page_aborts_pdf_extraction
    (file_obj : bytes) (before after : list page) (bad : page)
    (ps : list (option str)) (e : exn) :
  PdfReader file_obj = Ok (before ++ bad :: after) ->
  map extract_text before = map Ok ps ->
  extract_text bad = Raise e ->
  extract_text_from_pdf file_obj = ([call_PdfReader file_obj], Raise e).
Proof.
  intros Hreader Hbefore Hbad.
  unfold extract_text_from_pdf, call. rewrite Hreader, bind_ok.
  cbn [fst snd]. rewrite for_acc_app, (pdf_pages_loop _ _ _ Hbefore).
  rewrite bind_nil_ok. cbn [for_acc]. unfold lift at 1.
  now rewrite Hbad.
Qed.

(** X9.  A run whose text reached the model and whose call to the
    model raised, or whose reply [json.loads] rejected: inside the
    spinner the run shows two errors, the one that names the exception
    and then the analysis error, and renders nothing. *)
Theorem failed_analysis_shows_two_errors
    (f : UploadedFile) (l : trace) (contract_text : str) (e : exn) :
  size f <= size_limit ->
  extract_contract_text f (getvalue f) = (l, Ok contract_text) ->
  contract_text <> [] ->
  generate_content (prompt_head ++ contract_text ++ prompt_tail) = Raise e
  \/ (exists response_text,
        generate_content (prompt_head ++ contract_text ++ prompt_tail)
          = Ok response_text
        /\ json_loads (selected_payload response_text) = Raise e) ->
  script (Some f) true =
  (page_top ++ l
   ++ [spinner_enter (lit "Analyzing contract... Please wait.⏳");
       call_generate_content (prompt_head ++ contract_text ++ prompt_tail);
       st_error [FLit (lit "An error occurred: "); FExn e];
       analysis_error;
       spinner_exit], Ok tt).
Proof.
  intros Hsize Hx Htext Hfail.
  assert (Hg : get_gemini_response contract_text =
               ([call_generate_content (prompt_head ++ contract_text ++ prompt_tail);
                 st_error [FLit (lit "An error occurred: "); FExn e]], Ok JNull)).
  { destruct Hfail as [Hgen|(response_text & Hgen & Hloads)].
    - now apply get_gemini_response_model_raises.
    - now rewrite (get_gemini_response_reply _ _ _ _ Hgen), Hloads. }
  rewrite (script_processes _ _ _ _ f Hsize).
  now rewrite (process_file_analysed f l _ _ _ Hx Htext Hg).
Qed.

(** The presenter on a value that is no [dict]: the success banner, the
    style sheet and the first header, then the first [get] raises. *)
Lemma render_non_dict (v : json) :
  (forall d, v <> JDict d) ->
  render v =
  ([st_success (lit "Analysis Complete! 🎉");
    st_markdown [FLit custom_css] true;
    st_header (lit "Key Contract Details")],
   Raise (AttributeError v (lit "get"))).
Proof.
  intros Hv. destruct v; try reflexivity. now contradiction (Hv d).
Qed.

(** X10.  A reply that parses to a value that is true for Python and is
    no object (a list with items, a string, a number, [true]): the run
    shows the success banner, the style sheet and the first header, then
    the first [get] raises [AttributeError], and after the spinner the
    run shows the processing error with that exception. *)
Theorem non_object_result_fails_after_the_banner
    (f : UploadedFile) (l : trace) (contract_text response_text : str) (v : json) :
  size f <= size_limit ->
  extract_contract_text f (getvalue f) = (l, Ok contract_text) ->
  contract_text <> [] ->
  generate_content (prompt_head ++ contract_text ++ prompt_tail) = Ok response_text ->
  parse_response response_text = Ok v ->
  truthy v = true ->
  (forall d, v <> JDict d) ->
  script (Some f) true =
  (page_top ++ l
   ++ [spinner_enter (lit "Analyzing contract... Please wait.⏳");
       call_generate_content (prompt_head ++ contract_text ++ prompt_tail);
       st_success (lit "Analysis Complete! 🎉");
       st_markdown [FLit custom_css] true;
       st_header (lit "Key Contract Details");
       spinner_exit;
       processing_error (AttributeError v (lit "get"))], Ok tt).
Proof.
  intros Hsize Hx Htext Hgen Hparse Htruthy Hv.
  assert (Hg : get_gemini_response contract_text =
               ([call_generate_content (prompt_head ++ contract_text ++ prompt_tail)],
                Ok v)).
  { rewrite (get_gemini_response_reply _ _ _ _ Hgen).
    rewrite parse_response_payload in Hparse. now rewrite Hparse. }
  rewrite (script_processes _ _ _ _ f Hsize).
  rewrite (process_file_analysed f l _ _ _ Hx Htext Hg), Htruthy.
  rewrite (render_non_dict v Hv). reflexivity.
Qed.

(** X11.  The whole path: a text that is not empty, a reply that parses
    to an object with at least one item, nested objects of the shape and
    shown values that can be shown.  The run is the top of the page, the
    extraction, and inside the spinner the model call followed by the
    rendered page; it shows no error. *)
Theorem analysed_contract_is_rendered
    (f : UploadedFile) (l : trace) (contract_text response_text : str)
    (d : list (str * json)) :
  size f <= size_limit ->
  extract_contract_text f (getvalue f) = (l, Ok contract_text) ->
  contract_text <> [] ->
  generate_content (prompt_head ++ contract_text ++ prompt_tail) = Ok response_text ->
  parse_response response_text = Ok (JDict d) ->
  d <> [] ->
  clauses_shaped d = true ->
  fields_displayable d = true ->
  script (Some f) true =
  (page_top ++ l
   ++ [spinner_enter (lit "Analyzing contract... Please wait.⏳");
       call_generate_content (prompt_head ++ contract_text ++ prompt_tail)]
   ++ fst (render (JDict d)) ++ [spinner_exit], Ok tt)
  /\ filter is_error (fst (script (Some f) true)) = [].
Proof.
  intros Hsize Hx Htext Hgen Hparse Hd Hshape Hdisp.
  assert (Hg : get_gemini_response contract_text =
               ([call_generate_content (prompt_head ++ contract_text ++ prompt_tail)],
                Ok (JDict d))).
  { rewrite (get_gemini_response_reply _ _ _ _ Hgen).
    rewrite parse_response_payload in Hparse. now rewrite Hparse. }
  assert (Hrun : script (Some f) true =
    (page_top ++ l
     ++ [spinner_enter (lit "Analyzing contract... Please wait.⏳");
         call_generate_content (prompt_head ++ contract_text ++ prompt_tail)]
     ++ fst (render (JDict d)) ++ [spinner_exit], Ok tt)).
  { rewrite (script_processes _ _ _ _ f Hsize).
    rewrite (process_file_analysed f l _ _ _ Hx Htext Hg).
    replace (truthy (JDict d)) with true by (now destruct d).
    rewrite (render_shaped_returns d Hshape Hdisp). cbn [fst List.app].
    now rewrite app_nil_r. }
  split; [exact Hrun|]. rewrite Hrun. cbn [fst].
  rewrite !filter_app.
  change (filter is_error page_top) with (@nil event).
  assert (Hl : filter is_error l = []).
  { pose proof (extraction_quiet f (getvalue f)) as H. rewrite Hx in H.
    eapply filter_none; [|exact H]. now intros e' (H' & _). }
  assert (Hr : filter is_error (fst (render (JDict d))) = []).
  { eapply filter_none; [|apply render_quiet]. now intros e' (H' & _). }
  now rewrite Hl, Hr.
Qed.

(** X12.  In every run the spinner is either not opened or opened once
    and closed once, also when the presenter raises inside it. *)
Theorem spinner_is_closed_on_every_path
    (uploaded_file : option UploadedFile) (clicked : bool) :
  filter is_spinner (fst (script uploaded_file clicked)) = []
  \/ filter is_spinner (fst (script uploaded_file clicked)) =
     [spinner_enter (lit "Analyzing contract... Please wait.⏳"); spinner_exit].
Proof.
  unfold script. rewrite bind_ok. cbn [fst]. rewrite filter_app.
  change (filter is_spinner page_top) with (@nil event). cbn [List.app].
  destruct clicked; [|now left].
  destruct uploaded_file as [f|]; [|now left].
  unfold analyze. destruct (size f >? size_limit); [now left|].
  destruct (extract_contract_text f (getvalue f)) as [l [contract_text|e]] eqn:Hx.
  - assert (Hl : filter is_spinner l = []).
    { pose proof (extraction_quiet f (getvalue f)) as H. rewrite Hx in H.
      eapply filter_none; [|exact H]. now intros e' (_ & _ & H'). }
    assert (Hr : forall v, filter is_spinner (fst (render v)) = [])
      by (intros v; eapply filter_none; [|apply render_quiet];
          now intros e' (_ & _ & H')).
    destruct contract_text as [|c contract_text].
    + left. rewrite (process_file_no_text f l Hx). cbn [fst].
      now rewrite filter_app, Hl.
    + right.
      destruct (get_gemini_response_cases (c :: contract_text))
        as [[v Hg]|[e Hg]];
        rewrite (process_file_analysed f l _ _ _ Hx ltac:(discriminate) Hg).
      * destruct (truthy v); cbn [fst]; rewrite !filter_app, Hl.
        -- cbn [filter is_spinner List.app]. rewrite filter_app, Hr.
           destruct (snd (render v)); reflexivity.
        -- reflexivity.
      * cbn [truthy fst]. rewrite filter_app, Hl. reflexivity.
  - left. rewrite (process_file_extraction_raises f l e Hx). cbn [fst].
    pose proof (extraction_quiet f (getvalue f)) as H. rewrite Hx in H.
    rewrite filter_app.
    assert (Hl : filter is_spinner l = [])
      by (eapply filter_none; [|exact H]; now intros e' (_ & _ & H')).
    now rewrite Hl.
Qed.

(** X13.  For a plain-text upload the extraction step returns a text
    exactly when the content is the UTF-8 encoding of that text: nothing
    is replaced, skipped or stripped, a byte order mark included. *)
Theorem txt_extraction_is_exact (f : UploadedFile) (t : str) :
  type f = lit "text/plain" ->
  snd (extract_contract_text f (getvalue f)) = Ok t
  <-> utf8_encode t = Some (getvalue f).
Proof.
  intros Htype.
  assert (Hx : snd (extract_contract_text f (getvalue f))
               = utf8_decode (getvalue f)).
  { unfold extract_contract_text. rewrite Htype.
    change (str_eqb (lit "text/plain") (lit "application/pdf")) with false.
    change (str_eqb (lit "text/plain")
              (lit "application/vnd.openxmlformats-officedocument.wordprocessingml.document"))
      with false.
    change (str_eqb (lit "text/plain") (lit "text/plain")) with true.
    cbv iota. unfold emit, call. now rewrite bind_ok. }
  rewrite Hx. split.
  - apply utf8_decode_sound.
  - apply utf8_decode_encode.
Qed.

(** X14.  A reply with prose before and after one fenced block, the
    prose without a backtick: the payload is the text between the
    fences, whatever that text holds, and the parser returns what
    [json.loads] returns for it. *)
Theorem prose_around_the_fence_is_dropped (pre t post : str) :
  Forall (fun c => c <> 96) pre ->
  Forall (fun c => c <> 96) post ->
  selected_payload (pre ++ fence_open ++ t ++ fence_close ++ post) = t
  /\ parse_response (pre ++ fence_open ++ t ++ fence_close ++ post)
     = json_loads t.
Proof.
  intros Hpre Hpost.
  assert (Hp : selected_payload (pre ++ fence_open ++ t ++ fence_close ++ post) = t).
  { unfold selected_payload.
    now rewrite (re_search_between pre t post
                   (first_open_without_backtick pre Hpre)
                   (last_close_without_backtick post Hpost)). }
  split; [exact Hp|]. now rewrite parse_response_payload, Hp.
Qed.

(** The presenter starts with the success banner, whatever it is given. *)
Lemma render_starts_with_banner (v : json) :
  exists rest,
    fst (render v) = st_success (lit "Analysis Complete! 🎉") :: rest.
Proof.
  unfold render, emit at 1. rewrite bind_ok. cbn [fst List.app].
  now eexists.
Qed.

(** X17.  When the button is pressed the run always tells the user
    something: a warning, an error or the success banner is shown on
    every path. *)
Theorem pressed_button_gets_feedback (uploaded_file : option UploadedFile) :
  existsb is_feedback (fst (script uploaded_file true)) = true.
Proof.
  unfold script. rewrite bind_ok. cbn [fst]. rewrite existsb_app.
  apply orb_true_intro. right.
  destruct uploaded_file as [f|]; [|reflexivity].
  unfold analyze. destruct (size f >? size_limit); [reflexivity|].
  destruct (extract_contract_text f (getvalue f)) as [l [contract_text|e]] eqn:Hx.
  - destruct contract_text as [|c contract_text].
    + rewrite (process_file_no_text f l Hx). cbn [fst].
      rewrite existsb_app. apply orb_true_intro. now right.
    + destruct (get_gemini_response_cases (c :: contract_text))
        as [[v Hg]|[e Hg]];
        rewrite (process_file_analysed f l _ _ _ Hx ltac:(discriminate) Hg).
      * destruct (truthy v); cbn [fst]; rewrite existsb_app;
          apply orb_true_intro; right.
        -- destruct (render_starts_with_banner v) as [rest ->].
           rewrite existsb_app. apply orb_true_intro. left. reflexivity.
        -- reflexivity.
      * cbn [truthy fst]. rewrite existsb_app. apply orb_true_intro.
        now right.
  - rewrite (process_file_extraction_raises f l e Hx). cbn [fst].
    rewrite existsb_app. apply orb_true_intro. now right.
Qed.

End Runs.

(** ** The rendered page *)



(** ** Further runs on examples *)

(** Decides that no character of a literal is a backtick. *)
Ltac no_backtick :=
  vm_compute; repeat (constructor; [discriminate|]); constructor.

(** Decides a comparison of sizes or a difference of two literals. *)
Ltac decided :=
  let H := fresh in
  intros H; solve [discriminate H | vm_compute in H; discriminate H].

Lemma unknown_type_witness :
  let run := script (reply_with nda_text) sample_loads pdf_corrupt (docx_with []) in
  let f := png_file [x89; x50; x4e; x47] in
  size f <= size_limit
  /\ type f <> lit "text/plain"
  /\ extract_contract_text pdf_corrupt (docx_with []) f (getvalue f) = ([], Ok [])
  /\ run (Some f) true = (page_top ++ [no_text_error], Ok tt).
Proof.
  intros run f.
  assert (Hsize : size f <= size_limit) by decided.
  assert (Hpdf : type f <> lit "application/pdf") by decided.
  assert (Hdocx : type f <> lit "application/vnd.openxmlformats-officedocument.wordprocessingml.document")
    by decided.
  assert (Htxt : type f <> lit "text/plain") by decided.
  split; [exact Hsize|]. split; [exact Htxt|].
  exact (unknown_type_yields_no_text (reply_with nda_text) sample_loads
           pdf_corrupt (docx_with []) f Hsize Hpdf Hdocx Htxt).
Defined.

Lemma scanned_pdf_witness :
  let pages := [ {| extract_text := Ok None |};
                 {| extract_text := Ok (Some []) |} ] in
  let run := script (reply_with nda_text) sample_loads (pdf_with pages)
               (docx_with []) in
  Forall blank_page pages
  /\ run (Some (pdf_file 4 [x25; x50; x44; x46])) true =
     (page_top
      ++ [st_info [FLit (lit "Extracting text from PDF...")];
          call_PdfReader [x25; x50; x44; x46];
          no_text_error], Ok tt).
Proof.
  intros pages run.
  assert (Hblank : Forall blank_page pages).
  { constructor; [left; reflexivity|]. constructor; [right; reflexivity|].
    constructor. }
  assert (Hsize : size (pdf_file 4 [x25; x50; x44; x46]) <= size_limit)
    by decided.
  split; [exact Hblank|].
  exact (scanned_pdf_yields_no_text (reply_with nda_text) sample_loads
           (pdf_with pages) (docx_with []) (pdf_file 4 [x25; x50; x44; x46])
           pages Hsize eq_refl eq_refl Hblank).
Defined.

Lemma docx_with_a_paragraph_witness :
  let blank := {| paragraph_text := [] |} in
  let run := script (reply_with nda_text) sample_loads pdf_corrupt
               (docx_with [blank; blank]) in
  docx_with [blank; blank] [x50; x4b] = Ok [blank; blank]
  /\ nl ++ nl <> []
  /\ snd (extract_contract_text pdf_corrupt (docx_with [blank; blank])
            (docx_file [x50; x4b]) [x50; x4b]) = Ok (nl ++ nl)
  /\ filter is_model_call (fst (run (Some (docx_file [x50; x4b])) true)) =
     [call_generate_content (prompt_head ++ (nl ++ nl) ++ prompt_tail)].
Proof.
  intros blank run.
  assert (Hsize : size (docx_file [x50; x4b]) <= size_limit) by decided.
  split; [reflexivity|].
  exact (docx_with_a_paragraph_reaches_the_model (reply_with nda_text)
           sample_loads pdf_corrupt (docx_with [blank; blank])
           (docx_file [x50; x4b]) blank [blank] Hsize eq_refl eq_refl).
Defined.

Lemma failing_page_witness :
  let e := PyException (lit "PdfReadError") (lit "Unexpected end of stream") in
  let pages := [ {| extract_text := Ok (Some (lit "Lease ")) |};
                 {| extract_text := Raise e |};
                 {| extract_text := Ok (Some (lit "of a flat")) |} ] in
  pdf_with pages [x25; x50; x44; x46] = Ok pages
  /\ extract_text_from_pdf (pdf_with pages) [x25; x50; x44; x46]
     = ([call_PdfReader [x25; x50; x44; x46]], Raise e).
Proof.
  intros e pages. split; [reflexivity|].
  exact (failing_page_aborts_pdf_extraction (pdf_with pages)
           [x25; x50; x44; x46]
           [ {| extract_text := Ok (Some (lit "Lease ")) |} ]
           [ {| extract_text := Ok (Some (lit "of a flat")) |} ]
           {| extract_text := Raise e |}
           [Some (lit "Lease ")] e eq_refl eq_refl eq_refl).
Defined.

Lemma failed_analysis_witness :
  let run := script model_down sample_loads pdf_corrupt (docx_with []) in
  let f := txt_file (list_byte_of_string "Lease") in
  let prompt := prompt_head ++ lit "Lease" ++ prompt_tail in
  let e := PyException (lit "ServiceUnavailable")
             (lit "503 The model is overloaded.") in
  model_down prompt = Raise e
  /\ run (Some f) true =
     (page_top
      ++ [st_info [FLit (lit "Reading text from TXT...")];
          call_decode (list_byte_of_string "Lease")]
      ++ [spinner_enter (lit "Analyzing contract... Please wait.⏳");
          call_generate_content prompt;
          st_error [FLit (lit "An error occurred: "); FExn e];
          analysis_error;
          spinner_exit], Ok tt).
Proof.
  intros run f prompt e.
  assert (Hsize : size f <= size_limit) by decided.
  assert (Htext : lit "Lease" <> []) by discriminate.
  assert (Hdown : model_down prompt = Raise e) by reflexivity.
  split; [exact Hdown|].
  exact (failed_analysis_shows_two_errors model_down sample_loads pdf_corrupt
           (docx_with []) f _ (lit "Lease") e Hsize eq_refl Htext
           (or_introl Hdown)).
Defined.

Lemma non_object_result_witness :
  let loads := loads_table [(lit "[1]", JList [JInt 1])] in
  let run := script (reply_with (lit "[1]")) loads pdf_corrupt (docx_with []) in
  let f := txt_file (list_byte_of_string "Lease") in
  let prompt := prompt_head ++ lit "Lease" ++ prompt_tail in
  parse_response loads (lit "[1]") = Ok (JList [JInt 1])
  /\ truthy (JList [JInt 1]) = true
  /\ run (Some f) true =
     (page_top
      ++ [st_info [FLit (lit "Reading text from TXT...")];
          call_decode (list_byte_of_string "Lease")]
      ++ [spinner_enter (lit "Analyzing contract... Please wait.⏳");
          call_generate_content prompt;
          st_success (lit "Analysis Complete! 🎉");
          st_markdown [FLit custom_css] true;
          st_header (lit "Key Contract Details");
          spinner_exit;
          processing_error (AttributeError (JList [JInt 1]) (lit "get"))],
      Ok tt).
Proof.
  intros loads run f prompt.
  assert (Hsize : size f <= size_limit) by decided.
  assert (Htext : lit "Lease" <> []) by discriminate.
  assert (Hparse : parse_response loads (lit "[1]") = Ok (JList [JInt 1]))
    by reflexivity.
  assert (Hv : forall d, JList [JInt 1] <> JDict d) by discriminate.
  split; [exact Hparse|]. split; [reflexivity|].
  exact (non_object_result_fails_after_the_banner (reply_with (lit "[1]"))
           loads pdf_corrupt (docx_with []) f _ (lit "Lease") (lit "[1]")
           (JList [JInt 1]) Hsize eq_refl Htext eq_refl Hparse eq_refl Hv).
Defined.

Lemma analysed_contract_witness :
  let run := script (reply_with (fence_open ++ nda_text ++ fence_close))
               sample_loads pdf_corrupt (docx_with []) in
  let f := txt_file (list_byte_of_string "Lease") in
  let prompt := prompt_head ++ lit "Lease" ++ prompt_tail in
  parse_response sample_loads (fence_open ++ nda_text ++ fence_close)
    = Ok nda_json
  /\ run (Some f) true =
     (page_top
      ++ [st_info [FLit (lit "Reading text from TXT...")];
          call_decode (list_byte_of_string "Lease")]
      ++ [spinner_enter (lit "Analyzing contract... Please wait.⏳");
          call_generate_content prompt]
      ++ fst (render nda_json) ++ [spinner_exit], Ok tt)
  /\ filter is_error (fst (run (Some f) true)) = [].
Proof.
  intros run f prompt.
  assert (Hsize : size f <= size_limit) by decided.
  assert (Htext : lit "Lease" <> []) by discriminate.
  assert (Hparse : parse_response sample_loads
                     (fence_open ++ nda_text ++ fence_close) = Ok nda_json)
    by reflexivity.
  assert (Hd : [(lit "Contract Type", JStr (lit "NDA"))] <> []) by discriminate.
  split; [exact Hparse|].
  exact (analysed_contract_is_rendered
           (reply_with (fence_open ++ nda_text ++ fence_close)) sample_loads
           pdf_corrupt (docx_with []) f _ (lit "Lease")
           (fence_open ++ nda_text ++ fence_close)
           [(lit "Contract Type", JStr (lit "NDA"))]
           Hsize eq_refl Htext eq_refl Hparse Hd eq_refl eq_refl).
Defined.

Lemma txt_extraction_witness :
  let data := [xef; xbb; xbf; x4e; x44; x41] in
  type (txt_file data) = lit "text/plain"
  /\ (snd (extract_contract_text pdf_corrupt (docx_with []) (txt_file data) data)
      = Ok (65279 :: lit "NDA")
      <-> utf8_encode (65279 :: lit "NDA") = Some data)
  /\ snd (extract_contract_text pdf_corrupt (docx_with []) (txt_file data) data)
     = Ok (65279 :: lit "NDA").
Proof.
  intros data.
  pose proof (txt_extraction_is_exact pdf_corrupt (docx_with [])
                (txt_file data) (65279 :: lit "NDA") eq_refl) as H.
  split; [reflexivity|]. split; [exact H|].
  apply (proj2 H). reflexivity.
Defined.

Lemma prose_around_the_fence_witness :
  let pre := lit "Here is the analysis:" ++ nl in
  let post := nl ++ lit "Let me know if you need more." in
  Forall (fun c => c <> 96) pre
  /\ Forall (fun c => c <> 96) post
  /\ selected_payload (pre ++ fence_open ++ nda_text ++ fence_close ++ post)
     = nda_text
  /\ parse_response sample_loads
       (pre ++ fence_open ++ nda_text ++ fence_close ++ post)
     = sample_loads nda_text.
Proof.
  intros pre post.
  assert (Hpre : Forall (fun c => c <> 96) pre) by no_backtick.
  assert (Hpost : Forall (fun c => c <> 96) post) by no_backtick.
  split; [exact Hpre|]. split; [exact Hpost|].
  exact (prose_around_the_fence_is_dropped sample_loads pre nda_text post
           Hpre Hpost).
Defined.


